(** * Wisdom-Flow admin shell: tags view and theme engine

    A shallow embedding of
    - [management/web/src/layouts/components/TagsView/index.vue]
      (the script part and the guards of its template), and
    - [management/web/src/common/composables/useTheme.ts],
    followed by the properties of the shell that are checked against them.

    JavaScript values are modelled as follows: a property that may be
    [undefined] is an [option]; [===] on strings is [String.eqb] lifted to
    [option]; a handler that mutates the component is a function from the
    component state to the component state; a call of the router is an entry
    appended to a log. *)

From Stdlib Require Import List String Ascii Bool.
From Stdlib Require Import Reals Lra.
Import ListNotations.
Open Scope string_scope.

(* ================================================================== *)
(** * TagsView/index.vue *)
(* ================================================================== *)

Module TagsView.

(** ** Data *)

Definition LocationQuery := list (string * string).

(** The part of [RouteMeta] the component reads. *)
Record RouteMeta := mkMeta {
  title : option string;
  affix : option bool
}.

(** [TagView]: every property is optional ([selectedTag] starts as [{}]). *)
Record TagView := mkTag {
  fullPath : option string;
  path : option string;
  name : option string;
  query : option LocationQuery;
  meta : option RouteMeta
}.

Definition emptyTag : TagView := mkTag None None None None None.

(** A normalized route location, as [useRoute()] and the route listener
    deliver it: [path] and [fullPath] are always strings. *)
Record RouteLocationNormalized := mkRoute {
  r_fullPath : string;
  r_path : string;
  r_name : option string;
  r_query : LocationQuery;
  r_meta : RouteMeta
}.

(** A normalized route passed where a [TagView] is expected. *)
Definition tagOfRoute (r : RouteLocationNormalized) : TagView :=
  mkTag (Some (r_fullPath r)) (Some (r_path r)) (r_name r)
        (Some (r_query r)) (Some (r_meta r)).

(** A record of the static route configuration. A record without
    [children] has the empty list: [filterAffixTags] collects nothing from
    either. *)
#[local] Set Warnings "-register-all".
Inductive RouteRecordRaw :=
| RouteRecord (rr_path : string) (rr_name : option string)
              (rr_meta : option RouteMeta)
              (rr_children : list RouteRecordRaw).
#[local] Set Warnings "+register-all".

(** What [router.push] and [router.replace] are called with. *)
Inductive RouteLocationRaw :=
| ToString (target : string)
| ToObject (target : string) (q : option LocationQuery).

Inductive RouterCall :=
| Push (to : RouteLocationRaw)
| Replace (to : RouteLocationRaw).

(** ** JavaScript primitives *)

(** [a === b] on values that are a string or [undefined]. *)
Definition strictEq (a b : option string) : bool :=
  match a, b with
  | Some x, Some y => String.eqb x y
  | None, None => true
  | _, _ => false
  end.

(** Truthiness of a value that is a boolean or [undefined]. *)
Definition truthy (b : option bool) : bool :=
  match b with
  | Some true => true
  | _ => false
  end.

(** Truthiness of a value that is a string or [undefined]. *)
Definition truthyString (s : option string) : bool :=
  match s with
  | Some x => negb (String.eqb x "")
  | None => false
  end.

(** A string or [undefined] inside a template literal. *)
Definition interpolate (s : option string) : string :=
  match s with
  | Some x => x
  | None => "undefined"
  end.

(** [xs.slice(-1)[0]] *)
Definition lastElement {A : Type} (xs : list A) : option A :=
  last (map Some xs) None.

(** ** The tags-view store, seen from the component *)

Record StoreState := mkStore {
  visitedViews : list TagView;
  cachedViews : list string
}.

(** The operations of [useTagsViewStore()] the component calls. *)
Class TagsViewStore := {
  addVisitedView : TagView -> StoreState -> StoreState;
  addCachedView : TagView -> StoreState -> StoreState;
  delVisitedView : TagView -> StoreState -> StoreState;
  delCachedView : TagView -> StoreState -> StoreState;
  delOthersVisitedViews : TagView -> StoreState -> StoreState;
  delOthersCachedViews : TagView -> StoreState -> StoreState;
  delAllVisitedViews : StoreState -> StoreState;
  delAllCachedViews : StoreState -> StoreState
}.

(** ** The component *)

Record Component := mkComponent {
  store : StoreState;               (* tagsViewStore *)
  route : RouteLocationNormalized;  (* useRoute() *)
  affixTags : list TagView;         (* let affixTags *)
  selectedTag : TagView;            (* selectedTag.value *)
  routerCalls : list RouterCall     (* calls of router.push / replace *)
}.

Open Scope list_scope.

Definition withStore (f : StoreState -> StoreState) (c : Component) : Component :=
  mkComponent (f (store c)) (route c) (affixTags c) (selectedTag c)
              (routerCalls c).

Definition setAffixTags (tags : list TagView) (c : Component) : Component :=
  mkComponent (store c) (route c) tags (selectedTag c) (routerCalls c).

Definition router_push (to : RouteLocationRaw) (c : Component) : Component :=
  mkComponent (store c) (route c) (affixTags c) (selectedTag c)
              (routerCalls c ++ [Push to]).

Definition router_replace (to : RouteLocationRaw) (c : Component) : Component :=
  mkComponent (store c) (route c) (affixTags c) (selectedTag c)
              (routerCalls c ++ [Replace to]).

(** [isActive]: [tag.path === route.path] *)
Definition isActive (c : Component) (tag : TagView) : bool :=
  strictEq (path tag) (Some (r_path (route c))).

(** [isAffix]: [tag.meta?.affix], on the [meta] of a tag or of a route record *)
Definition isAffixMeta (m : option RouteMeta) : option bool :=
  match m with
  | Some x => affix x
  | None => None
  end.

Definition isAffix (tag : TagView) : option bool := isAffixMeta (meta tag).

Section Script.

Context {tagsViewStore : TagsViewStore}.

(** [path.resolve] of path-browserify. *)
Variable resolve : string -> string -> string.

(** The body of [routes.forEach] in [filterAffixTags], for one route. *)
Fixpoint filterAffixTagsOf (basePath : string) (r : RouteRecordRaw) : list TagView :=
  match r with
  | RouteRecord rpath rname rmeta rchildren =>
      (if truthy (isAffixMeta rmeta)
       then
         let tagPath := resolve basePath rpath in
         [mkTag (Some tagPath) (Some tagPath) rname None rmeta]
       else [])
      ++
      (fix each (children : list RouteRecordRaw) : list TagView :=
         match children with
         | [] => []
         | child :: rest => filterAffixTagsOf rpath child ++ each rest
         end) rchildren
  end.

Definition filterAffixTags (routes : list RouteRecordRaw) (basePath : string)
  : list TagView :=
  flat_map (filterAffixTagsOf basePath) routes.

(** [initTags]; [routes] is [permissionStore.routes]. *)
Definition initTags (routes : list RouteRecordRaw) (c : Component) : Component :=
  let tags := filterAffixTags routes "/" in
  fold_left
    (fun c tag =>
       if truthyString (name tag)
       then withStore (addVisitedView tag) c
       else c)
    tags (setAffixTags tags c).

(** [addTags] *)
Definition addTags (r : RouteLocationNormalized) (c : Component) : Component :=
  if truthyString (r_name r)
  then
    let c := withStore (addVisitedView (tagOfRoute r)) c in
    withStore (addCachedView (tagOfRoute r)) c
  else c.

(** Modelled from the spec: the listener of the missing
    [@@/composables/useRouteListener], "route navigation events flow into the
    View Registry": [listenerRouteChange((route) => { addTags(route) })] is
    called with the route the application has moved to. *)
Definition routeChanged (r : RouteLocationNormalized) (c : Component) : Component :=
  addTags r (mkComponent (store c) r (affixTags c) (selectedTag c) (routerCalls c)).

(** [openMenu], as far as the handlers depend on it: the tag under the
    pointer becomes the selected tag. *)
Definition openMenu (tag : TagView) (c : Component) : Component :=
  mkComponent (store c) (route c) (affixTags c) tag (routerCalls c).

(** [refreshSelectedTag] *)
Definition refreshSelectedTag (view : TagView) (c : Component) : Component :=
  let c := withStore (delCachedView view) c in
  router_replace
    (ToObject ("/redirect" ++ interpolate (path view))%string (query view)) c.

(** [toLastView] *)
Definition toLastView (visited : list TagView) (view : TagView) (c : Component)
  : Component :=
  let latestView := lastElement visited in
  let fullPath_ := match latestView with
                   | Some v => fullPath v
                   | None => None
                   end in
  match fullPath_ with
  | Some fp => router_push (ToString fp) c
  | None =>
      if strictEq (name view) (Some "Dashboard")
      then router_push
             (ToObject ("/redirect" ++ interpolate (path view))%string (query view)) c
      else router_push (ToString "/") c
  end.

(** [closeSelectedTag] *)
Definition closeSelectedTag (view : TagView) (c : Component) : Component :=
  let c := withStore (delVisitedView view) c in
  let c := withStore (delCachedView view) c in
  if isActive c view then toLastView (visitedViews (store c)) view c else c.

(** [closeOthersTags] *)
Definition closeOthersTags (c : Component) : Component :=
  let fullPath_ := fullPath (selectedTag c) in
  let c :=
    match fullPath_ with
    | Some fp =>
        if negb (String.eqb fp (r_path (route c)))
        then router_push (ToString fp) c
        else c
    | None => c
    end in
  let c := withStore (delOthersVisitedViews (selectedTag c)) c in
  withStore (delOthersCachedViews (selectedTag c)) c.

(** [closeAllTags] *)
Definition closeAllTags (view : TagView) (c : Component) : Component :=
  let c := withStore delAllVisitedViews c in
  let c := withStore delAllCachedViews c in
  if existsb (fun tag => strictEq (path tag) (Some (r_path (route c)))) (affixTags c)
  then c
  else toLastView (visitedViews (store c)) view c.

(** ** The template: where the close handler is reachable

    [@click.middle="!isAffix(tag) && closeSelectedTag(tag)"] on every tag of
    the strip; the close icon and the "close" entry of the context menu are
    rendered under [v-if="!isAffix(...)"]. *)

Definition clickMiddle (tag : TagView) (c : Component) : Component :=
  if negb (truthy (isAffix tag)) then closeSelectedTag tag c else c.

Definition clickCloseIcon (tag : TagView) (c : Component) : Component :=
  if negb (truthy (isAffix tag)) then closeSelectedTag tag c else c.

Definition clickMenuClose (c : Component) : Component :=
  if negb (truthy (isAffix (selectedTag c)))
  then closeSelectedTag (selectedTag c) c
  else c.

Definition clickMenuRefresh (c : Component) : Component :=
  refreshSelectedTag (selectedTag c) c.

Definition clickMenuCloseOthers (c : Component) : Component :=
  closeOthersTags c.

Definition clickMenuCloseAll (c : Component) : Component :=
  closeAllTags (selectedTag c) c.

End Script.

(** ** The store

    [@/pinia/stores/tags-view] is not among the sources at hand; its
    operations follow the View Registry section of the specification. *)

(** Modelled from the spec: [path] is the key of a VisitedView
    ("unique within the registry"). *)
Definition samePath (a b : TagView) : bool := strictEq (path a) (path b).

(** Modelled from the spec: a cached name counts as affixed when an affixed
    VisitedView of the registry carries it ("removes every VisitedView /
    CachedView except keep and any affixed views"). *)
Definition affixedName (visited : list TagView) (n : string) : bool :=
  existsb (fun v => truthy (isAffix v) && strictEq (name v) (Some n)) visited.

(** Modelled from the spec: [addVisitedView] of the missing store,
    "insert-or-noop into VisitedViews (by path)", in insertion order. *)
Definition spec_addVisitedView (view : TagView) (st : StoreState) : StoreState :=
  if existsb (samePath view) (visitedViews st)
  then st
  else mkStore (visitedViews st ++ [view]) (cachedViews st).

(** Modelled from the spec: [addCachedView] of the missing store,
    "insert-or-noop into CachedViews (by name)"; "a view is cached only if
    its route declares a name". *)
Definition spec_addCachedView (view : TagView) (st : StoreState) : StoreState :=
  match name view with
  | Some n =>
      if existsb (String.eqb n) (cachedViews st)
      then st
      else mkStore (visitedViews st) (cachedViews st ++ [n])
  | None => st
  end.

(** Modelled from the spec: [delVisitedView] of the missing store, "removes
    view" from VisitedViews; "closing a view not present in the registry:
    no-op". *)
Definition spec_delVisitedView (view : TagView) (st : StoreState) : StoreState :=
  mkStore (filter (fun v => negb (samePath v view)) (visitedViews st))
          (cachedViews st).

(** Modelled from the spec: [delCachedView] of the missing store, "removes
    view" from CachedViews, which holds names. *)
Definition spec_delCachedView (view : TagView) (st : StoreState) : StoreState :=
  match name view with
  | Some n =>
      mkStore (visitedViews st)
              (filter (fun m => negb (String.eqb m n)) (cachedViews st))
  | None => st
  end.

(** Modelled from the spec: [delOthersVisitedViews] of the missing store,
    "removes every VisitedView except keep and any affixed views". *)
Definition spec_delOthersVisitedViews (keep : TagView) (st : StoreState)
  : StoreState :=
  mkStore (filter (fun v => truthy (isAffix v) || samePath v keep)
                  (visitedViews st))
          (cachedViews st).

(** Modelled from the spec: [delOthersCachedViews] of the missing store,
    "removes every CachedView except keep and any affixed views". *)
Definition spec_delOthersCachedViews (keep : TagView) (st : StoreState)
  : StoreState :=
  mkStore (visitedViews st)
          (filter (fun n => affixedName (visitedViews st) n
                            || strictEq (name keep) (Some n))
                  (cachedViews st)).

(** Modelled from the spec: [delAllVisitedViews] of the missing store,
    "removes every non-affixed VisitedView". *)
Definition spec_delAllVisitedViews (st : StoreState) : StoreState :=
  mkStore (filter (fun v => truthy (isAffix v)) (visitedViews st))
          (cachedViews st).

(** Modelled from the spec: [delAllCachedViews] of the missing store,
    "removes every non-affixed CachedView". *)
Definition spec_delAllCachedViews (st : StoreState) : StoreState :=
  mkStore (visitedViews st)
          (filter (affixedName (visitedViews st)) (cachedViews st)).

(** Modelled from the spec: the store [useTagsViewStore()] returns. *)
#[export] Instance specStore : TagsViewStore := {|
  addVisitedView := spec_addVisitedView;
  addCachedView := spec_addCachedView;
  delVisitedView := spec_delVisitedView;
  delCachedView := spec_delCachedView;
  delOthersVisitedViews := spec_delOthersVisitedViews;
  delOthersCachedViews := spec_delOthersCachedViews;
  delAllVisitedViews := spec_delAllVisitedViews;
  delAllCachedViews := spec_delAllCachedViews
|}.

(** ** Reading aids for the statements below *)

(** The target [toLastView] pushes: the full path of the last visited view,
    and without one the home rule. *)
Definition lastViewTarget (visited : list TagView) (view : TagView)
  : RouteLocationRaw :=
  match lastElement visited with
  | Some latest =>
      match fullPath latest with
      | Some fp => ToString fp
      | None =>
          if strictEq (name view) (Some "Dashboard")
          then ToObject ("/redirect" ++ interpolate (path view))%string (query view)
          else ToString "/"
      end
  | None =>
      if strictEq (name view) (Some "Dashboard")
      then ToObject ("/redirect" ++ interpolate (path view))%string (query view)
      else ToString "/"
  end.

(** Every registered view has a full path. [initTags] registers tags built
    with [fullPath: tagPath], [addTags] registers normalized routes. *)
Definition registryWellFormed (st : StoreState) : Prop :=
  Forall (fun t => fullPath t <> None) (visitedViews st).

(** No two registered views share a path. *)
Definition uniquePaths (st : StoreState) : Prop :=
  NoDup (map path (visitedViews st)).

(** The current route path is the path of one of [tags]. *)
Definition onOneOf (c : Component) (tags : list TagView) : bool :=
  existsb (fun tag => strictEq (path tag) (Some (r_path (route c)))) tags.

(** The calls of the router in [after] are those in [before] followed by
    calls of [router.push] only. *)
Definition pushesOnly (before after : Component) : Prop :=
  exists calls,
    routerCalls after = routerCalls before ++ calls
    /\ Forall (fun call => exists to, call = Push to) calls.

(** The navigation rule of close-all in the words of the specification:
    nothing is pushed when the current route path belongs to a view that
    survived in the registry, otherwise the rule of close-one applies. *)
Definition closeAllNavigatesBySurvivors (view : TagView) (c : Component) : Prop :=
  let c' := closeAllTags view c in
  if onOneOf c (visitedViews (store c'))
  then routerCalls c' = routerCalls c
  else routerCalls c'
       = routerCalls c ++ [Push (lastViewTarget (visitedViews (store c')) view)].

End TagsView.

(* ================================================================== *)
(** * composables/useTheme.ts *)
(* ================================================================== *)

Module Theme.

Open Scope R_scope.

Definition DEFAULT_THEME_NAME : string := "normal".

(** A theme name at run time is a string; the type [ThemeName] of the
    source restricts it to the registered names at compile time only. *)
Definition ThemeName := string.

Record ThemeList := mkThemeItem {
  title : string;
  name : ThemeName
}.

Definition themeList : list ThemeList :=
  [ mkThemeItem "默认" DEFAULT_THEME_NAME;
    mkThemeItem "黑暗" "dark";
    mkThemeItem "深蓝" "dark-blue" ].

(** The value of a CSS variable: a length in pixels or a literal. *)
Inductive CssValue :=
| Px (r : R)
| Literal (s : string).

Record MouseEvent := mkMouseEvent {
  clientX : R;
  clientY : R
}.

(** An operation on [document.documentElement.classList]. *)
Inductive ClassOp :=
| ClassRemove (tokens : list string)
| ClassAdd (token : string).

(** The handler of [setTheme]: [() => { activeThemeName.value = value }]. *)
Inductive Handler :=
| AssignActiveThemeName (value : ThemeName).

Record Page := mkPage {
  activeThemeName : ThemeName;          (* the ref *)
  cssVars : list (string * CssValue);   (* variables set by setCssVar *)
  classList : list string;              (* classes of the html root *)
  classOps : list ClassOp;              (* operations on them, in order *)
  storedThemeName : option string;      (* the persisted theme name *)
  innerWidth : R;                       (* window.innerWidth *)
  innerHeight : R;                      (* window.innerHeight *)
  hasStartViewTransition : bool;        (* document.startViewTransition *)
  updateCallbacks : list Handler        (* handed to it, not yet called *)
}.

(** [Math.hypot] and [Math.max], on real numbers. *)
Definition hypot (a b : R) : R := sqrt (a * a + b * b).

(** Modelled from the spec: [setCssVar] of the missing [@@/utils/css],
    "stores radius and coordinates as transient style parameters": it sets
    a custom property of the root element. *)
Definition setCssVar (var : string) (value : CssValue) (p : Page) : Page :=
  mkPage (activeThemeName p)
         ((var, value) :: filter (fun kv => negb (String.eqb (fst kv) var)) (cssVars p))
         (classList p) (classOps p) (storedThemeName p)
         (innerWidth p) (innerHeight p) (hasStartViewTransition p)
         (updateCallbacks p).

Definition getCssVar (var : string) (p : Page) : option CssValue :=
  match find (fun kv => String.eqb (fst kv) var) (cssVars p) with
  | Some kv => Some (snd kv)
  | None => None
  end.


(** Modelled from the spec: [setActiveThemeName] of the missing
    [@@/utils/cache/local-storage], "written whenever their value changes". *)
Definition setActiveThemeName (value : ThemeName) (p : Page) : Page :=
  mkPage (activeThemeName p) (cssVars p) (classList p) (classOps p)
         (Some value)
         (innerWidth p) (innerHeight p) (hasStartViewTransition p)
         (updateCallbacks p).


Definition assignActiveThemeName (value : ThemeName) (p : Page) : Page :=
  mkPage value (cssVars p) (classList p) (classOps p) (storedThemeName p)
         (innerWidth p) (innerHeight p) (hasStartViewTransition p)
         (updateCallbacks p).

(** Calling the handler. *)
Definition call (h : Handler) (p : Page) : Page :=
  match h with
  | AssignActiveThemeName value => assignActiveThemeName value p
  end.

(** [document.startViewTransition(handler)]: the browser keeps the update
    callback and calls it later, once it has captured the old state of the
    page; the call itself returns without having run it. *)
Definition document_startViewTransition (h : Handler) (p : Page) : Page :=
  mkPage (activeThemeName p) (cssVars p) (classList p) (classOps p)
         (storedThemeName p)
         (innerWidth p) (innerHeight p) (hasStartViewTransition p)
         (updateCallbacks p ++ [h]).

(** The browser calling the update callbacks it holds. *)
Definition runUpdateCallbacks (p : Page) : Page :=
  fold_left (fun p h => call h p) (updateCallbacks p)
    (mkPage (activeThemeName p) (cssVars p) (classList p) (classOps p)
            (storedThemeName p)
            (innerWidth p) (innerHeight p) (hasStartViewTransition p) []).

(** The [maxRadius] of [setTheme], from the click and the viewport. *)
Definition maxRadius (x y w h : R) : R :=
  hypot (Rmax x (w - x)) (Rmax y (h - y)).

(** [setTheme] *)
Definition setTheme (ev : MouseEvent) (value : ThemeName) (p : Page) : Page :=
  let maxRadius_ :=
    maxRadius (clientX ev) (clientY ev) (innerWidth p) (innerHeight p) in
  let p := setCssVar "--v3-theme-x" (Px (clientX ev)) p in
  let p := setCssVar "--v3-theme-y" (Px (clientY ev)) p in
  let p := setCssVar "--v3-theme-r" (Px maxRadius_) p in
  let p :=
    if String.eqb value "dark" then
      let p := setCssVar "--v3-sidebar-bg-color" (Literal "#e8e8e8") p in
      let p := setCssVar "--v3-sidebar-text-color" (Literal "#505050") p in
      let p := setCssVar "--v3-sidebar-hover-bg-color" (Literal "#d0d0d0") p in
      setCssVar "--v3-sidebar-active-text-color" (Literal "#333333") p
    else if String.eqb value "dark-blue" then
      let p := setCssVar "--v3-sidebar-bg-color" (Literal "#f9f0e6") p in
      let p := setCssVar "--v3-sidebar-text-color" (Literal "#8b7d6b") p in
      let p := setCssVar "--v3-sidebar-hover-bg-color" (Literal "#e8d7c6") p in
      setCssVar "--v3-sidebar-active-text-color" (Literal "#6d5d4b") p
    else
      let p := setCssVar "--v3-sidebar-bg-color" (Literal "#ffffff") p in
      let p := setCssVar "--v3-sidebar-text-color" (Literal "#333333") p in
      let p := setCssVar "--v3-sidebar-hover-bg-color" (Literal "#f5f7fa") p in
      setCssVar "--v3-sidebar-active-text-color" (Literal "#1890ff") p in
  let handler := AssignActiveThemeName value in
  if hasStartViewTransition p
  then document_startViewTransition handler p
  else call handler p.

(** The exceptions of [DOMTokenList]. *)
Inductive DOMException :=
| SyntaxError
| InvalidCharacterError.

(** ASCII white space: tab, line feed, form feed, carriage return, space. *)
Definition isAsciiWhitespace (c : Ascii.ascii) : bool :=
  existsb (Ascii.eqb c) [" "; "009"; "010"; "012"; "013"]%char.

Fixpoint hasAsciiWhitespace (s : string) : bool :=
  match s with
  | EmptyString => false
  | String c rest => isAsciiWhitespace c || hasAsciiWhitespace rest
  end.

(** What [DOMTokenList] throws for a token: [SyntaxError] for the empty
    string, [InvalidCharacterError] for one with ASCII white space. *)
Definition tokenError (token : string) : option DOMException :=
  if String.eqb token "" then Some SyntaxError
  else if hasAsciiWhitespace token then Some InvalidCharacterError
  else None.

Definition validToken (token : string) : bool :=
  match tokenError token with
  | None => true
  | Some _ => false
  end.

(** A call that returns, or throws and leaves the page as it found it. *)
Inductive Outcome :=
| Returned (p : Page)
| Threw (e : DOMException) (p : Page).

(** The page after the call, whether it returned or threw. *)
Definition pageOf (o : Outcome) : Page :=
  match o with
  | Returned p => p
  | Threw _ p => p
  end.

(** [classList.add(token)]: throws on a token that is empty or has white
    space; a token already present is not added again. *)
Definition classList_add (token : string) (p : Page) : Outcome :=
  match tokenError token with
  | Some e => Threw e p
  | None =>
      Returned
        (mkPage (activeThemeName p) (cssVars p)
                (if existsb (String.eqb token) (classList p)
                 then classList p
                 else classList p ++ [token])
                (classOps p ++ [ClassAdd token]) (storedThemeName p)
                (innerWidth p) (innerHeight p) (hasStartViewTransition p)
                (updateCallbacks p))
  end.

(** [classList.remove(...tokens)]; the only caller, [removeHtmlClass], passes
    names of [themeList], none of which is empty or has white space. *)
Definition classList_remove (tokens : list string) (p : Page) : Page :=
  mkPage (activeThemeName p) (cssVars p)
         (filter (fun c => negb (existsb (String.eqb c) tokens)) (classList p))
         (classOps p ++ [ClassRemove tokens]) (storedThemeName p)
         (innerWidth p) (innerHeight p) (hasStartViewTransition p)
         (updateCallbacks p).

(** [addHtmlClass] *)
Definition addHtmlClass (value : ThemeName) (p : Page) : Outcome :=
  classList_add value p.

(** [removeHtmlClass] *)
Definition removeHtmlClass (value : ThemeName) (p : Page) : Page :=
  let otherThemeNameList :=
    filter (fun n => negb (String.eqb n value)) (map name themeList) in
  classList_remove otherThemeNameList p.

(** The effect [initTheme] registers with [watchEffect]: it runs once at
    registration and again after every change of [activeThemeName]. When
    [addHtmlClass] throws, the effect ends there: the classes are already
    removed and [setActiveThemeName] is not reached. *)
Definition themeEffectOutcome (p : Page) : Outcome :=
  let value := activeThemeName p in
  let p := removeHtmlClass value p in
  match addHtmlClass value p with
  | Returned p => Returned (setActiveThemeName value p)
  | Threw e p => Threw e p
  end.

(** The page the effect leaves, whether it ran to its end or threw. *)
Definition themeEffect (p : Page) : Page := pageOf (themeEffectOutcome p).

(** [initTheme] *)
Definition initTheme (p : Page) : Page := themeEffect p.

(** A theme name of the registered enumeration. *)
Definition registered (value : ThemeName) : bool :=
  existsb (String.eqb value) (map name themeList).

(** The Euclidean distance from the point [(x, y)] to the point [(cx, cy)]. *)
Definition distance (x y cx cy : R) : R :=
  sqrt ((x - cx) * (x - cx) + (y - cy) * (y - cy)).

(** The largest of the distances from [(x, y)] to the four corners of a
    viewport of width [w] and height [h]. *)
Definition farthestCorner (x y w h : R) : R :=
  Rmax (Rmax (distance x y 0 0) (distance x y w 0))
       (Rmax (distance x y 0 h) (distance x y w h)).

End Theme.

(* ================================================================== *)
(** * Sample states *)
(* ================================================================== *)

Module Sample.

Import TagsView.

Definition plainMeta (t : string) : RouteMeta := mkMeta (Some t) None.

Definition dashboardRoute : RouteLocationNormalized :=
  mkRoute "/dashboard" "/dashboard" (Some "Dashboard") []
          (mkMeta (Some "Dashboard") (Some true)).

Definition kbListRoute : RouteLocationNormalized :=
  mkRoute "/kb/list" "/kb/list" (Some "KBList") [] (plainMeta "List").

Definition kbEditRoute : RouteLocationNormalized :=
  mkRoute "/kb/edit?id=3" "/kb/edit" (Some "KBEdit") [("id", "3")]
          (plainMeta "Edit").

Definition dashboard : TagView :=
  mkTag (Some "/dashboard") (Some "/dashboard") (Some "Dashboard") None
        (Some (mkMeta (Some "Dashboard") (Some true))).

Definition kbList : TagView := tagOfRoute kbListRoute.

Definition kbEdit : TagView := tagOfRoute kbEditRoute.

(** The dashboard pinned, two pages opened after it. *)
Definition threeTabs : StoreState :=
  mkStore [dashboard; kbList; kbEdit] ["Dashboard"; "KBList"; "KBEdit"].

(** The user is on [/kb/list]; the context menu was opened on it. *)
Definition onList : Component :=
  mkComponent threeTabs kbListRoute [dashboard] kbList [].

(** The user is on [/kb/edit?id=3]; the context menu was opened on it. *)
Definition onEdit : Component :=
  mkComponent threeTabs kbEditRoute [dashboard] kbEdit [].

(** A route configuration whose only pinned route has no name. *)
Definition noticeRoutes : list RouteRecordRaw :=
  [RouteRecord "/notice" None (Some (mkMeta (Some "Notice") (Some true))) []].

Definition noticeRoute : RouteLocationNormalized :=
  mkRoute "/notice" "/notice" None [] (mkMeta (Some "Notice") (Some true)).

Definition noticeTag : TagView :=
  mkTag (Some "/notice") (Some "/notice") None None
        (Some (mkMeta (Some "Notice") (Some true))).

(** The component before [initTags], the application being on [/kb/list]. *)
Definition fresh : Component :=
  mkComponent (mkStore [] []) kbListRoute [] emptyTag [].

(** [/kb/list] is open in the strip; the user is on [/notice], which is
    pinned but was never registered, and opened the context menu on the
    tab of [/kb/list]. *)
Definition onNotice : Component :=
  mkComponent (mkStore [kbList] ["KBList"]) noticeRoute [noticeTag] kbList [].

(** [path.resolve] on an absolute, normalized second argument. *)
Definition resolveAbsolute (base p : string) : string := p.

Import Theme.

Definition click : MouseEvent := mkMouseEvent 3 4.

(** A page showing the default theme, in a browser without view
    transitions. *)
Definition plainPage : Page :=
  mkPage "normal" [] ["normal"] [] (Some "normal") 10 8 false [].

(** The same page in a browser with view transitions. *)
Definition animatedPage : Page :=
  mkPage "normal" [] ["normal"] [] (Some "normal") 10 8 true [].

End Sample.

(* ================================================================== *)
(** * The context menu and the navigation bar *)
(* ================================================================== *)

(** The panel of the context menu in [TagsView/index.vue]. *)
Module ContextMenu.

Import TagsView.

Open Scope R_scope.

(** The part of the [MouseEvent] that [openMenu] reads. *)
Record MouseEvent := mkMouseEvent {
  clientX : R;
  clientY : R
}.

(** The refs [visible], [top], [left] and [selectedTag]. *)
Record Menu := mkMenu {
  visible : bool;
  top : R;
  left : R;
  selectedTag : TagView
}.

(** [openMenu]; [offsetWidth] is [document.body.offsetWidth]. *)
Definition openMenu (tag : TagView) (e : MouseEvent) (offsetWidth : R)
  (m : Menu) : Menu :=
  let menuMinWidth := 100 in
  let maxLeft := offsetWidth - menuMinWidth in
  let left15 := clientX e + 10 in
  mkMenu true
         (clientY e)
         (if Rgt_dec left15 maxLeft then maxLeft else left15)
         tag.

(** [closeMenu] *)
Definition closeMenu (m : Menu) : Menu :=
  mkMenu false (top m) (left m) (selectedTag m).

End ContextMenu.

(** The template of the navigation bar: which of its parts are rendered. *)
Module NavigationBar.

(** [<Hamburger v-if="!isTop || isMobile">] *)
Definition rendersHamburger (isTop isMobile : bool) : bool :=
  negb isTop || isMobile.

(** [<Breadcrumb v-if="!isTop || isMobile">] *)
Definition rendersBreadcrumb (isTop isMobile : bool) : bool :=
  negb isTop || isMobile.

(** [<Sidebar v-if="isTop && !isMobile">] *)
Definition rendersSidebar (isTop isMobile : bool) : bool :=
  isTop && negb isMobile.

End NavigationBar.

(** ** Further sample data *)

Module Sample2.

Import TagsView.

(** The [meta] of a route record. *)
Definition metaOf (r : RouteRecordRaw) : option RouteMeta :=
  match r with
  | RouteRecord _ _ m _ => m
  end.

Definition pinnedMeta (t : string) : RouteMeta := mkMeta (Some t) (Some true).

(** A section [/kb] that is not pinned, with a pinned page [home] and, below
    a second level [docs], a pinned page [intro]. *)
Definition kbRoutes : list RouteRecordRaw :=
  [RouteRecord "/kb" (Some "KB") (Some (Sample.plainMeta "KB"))
     [RouteRecord "home" (Some "KBHome") (Some (pinnedMeta "Home")) [];
      RouteRecord "docs" None None
        [RouteRecord "intro" (Some "Intro") (Some (pinnedMeta "Intro")) []]]].

(** A stand-in for [path.resolve] on a relative segment. *)
Definition joinPaths (base p : string) : string := (base ++ "/" ++ p)%string.

(** A root element that carries a class of the application besides the
    class of the theme. *)
Definition pageWithAppClass : Theme.Page :=
  Theme.mkPage "dark" [] ["app"; "normal"] [] (Some "normal") 10 8 false [].

(** A page whose persisted theme name is not a registered one. *)
Definition pageWithUnknownTheme : Theme.Page :=
  Theme.mkPage "bogus-theme" [] ["app"; "dark"] [] (Some "bogus-theme")
               10 8 false [].

(** A page whose active theme name is no token [classList] accepts. *)
Definition pageWithSpacedTheme : Theme.Page :=
  Theme.mkPage "my theme" [] ["app"; "dark"] [] (Some "dark") 10 8 false [].

End Sample2.

(* ================================================================== *)
(** * Properties of the tags view *)
(* ================================================================== *)

Import TagsView.

(** ** JavaScript primitives *)

Lemma strictEq_true (a b : option string) : strictEq a b = true <-> a = b.
Proof.
  destruct a as [x|], b as [y|]; simpl; split; intro H;
    try discriminate; try reflexivity.
  - apply String.eqb_eq in H. now subst.
  - injection H as ->. apply String.eqb_refl.
Qed.

Lemma strictEq_false (a b : option string) : strictEq a b = false <-> a <> b.
Proof.
  rewrite <- Bool.not_true_iff_false. now rewrite strictEq_true.
Qed.

Lemma lastElement_snoc {A : Type} (xs : list A) (x : A) :
  lastElement (xs ++ [x]) = Some x.
Proof.
  unfold lastElement. rewrite map_app. simpl. apply last_last.
Qed.

Lemma lastElement_In {A : Type} (xs : list A) (x : A) :
  lastElement xs = Some x -> In x xs.
Proof.
  destruct xs as [|y ys] using rev_ind.
  - discriminate.
  - rewrite lastElement_snoc. intros [= ->]. apply in_or_app. right. now left.
Qed.

Lemma lastElement_None {A : Type} (xs : list A) :
  lastElement xs = None <-> xs = [].
Proof.
  split.
  - destruct xs as [|y ys] using rev_ind; [reflexivity|].
    rewrite lastElement_snoc. discriminate.
  - intros ->. reflexivity.
Qed.

(** ** The router log *)

Lemma toLastView_push (visited : list TagView) (view : TagView) (c : Component) :
  toLastView visited view c = router_push (lastViewTarget visited view) c.
Proof.
  unfold toLastView, lastViewTarget.
  destruct (lastElement visited) as [latest|]; simpl.
  - destruct (fullPath latest); [reflexivity|].
    destruct (strictEq (name view) (Some "Dashboard")); reflexivity.
  - destruct (strictEq (name view) (Some "Dashboard")); reflexivity.
Qed.

Lemma toLastView_store (visited : list TagView) (view : TagView) (c : Component) :
  store (toLastView visited view c) = store c.
Proof. now rewrite toLastView_push. Qed.

Lemma toLastView_calls (visited : list TagView) (view : TagView) (c : Component) :
  routerCalls (toLastView visited view c)
  = routerCalls c ++ [Push (lastViewTarget visited view)].
Proof. now rewrite toLastView_push. Qed.

(** ** The store of the specification *)

Lemma in_delVisitedView (view t : TagView) (st : StoreState) :
  In t (visitedViews (delVisitedView view st))
  <-> In t (visitedViews st) /\ path t <> path view.
Proof.
  simpl. rewrite filter_In. unfold samePath.
  rewrite Bool.negb_true_iff, strictEq_false. reflexivity.
Qed.

Lemma in_delCachedView (view : TagView) (n : string) (st : StoreState) :
  In n (cachedViews (delCachedView view st))
  <-> In n (cachedViews st) /\ name view <> Some n.
Proof.
  simpl. unfold spec_delCachedView. destruct (name view) as [m|]; simpl.
  - rewrite filter_In, Bool.negb_true_iff, String.eqb_neq.
    split; intros [H1 H2]; split; auto; congruence.
  - split; [intro H; split; [exact H | discriminate] | tauto].
Qed.

Lemma visited_delCachedView (view : TagView) (st : StoreState) :
  visitedViews (delCachedView view st) = visitedViews st.
Proof.
  simpl. unfold spec_delCachedView. now destruct (name view).
Qed.

Lemma registryWellFormed_filter (f : TagView -> bool) (st : StoreState) :
  registryWellFormed st ->
  Forall (fun t => fullPath t <> None) (filter f (visitedViews st)).
Proof.
  unfold registryWellFormed. rewrite !Forall_forall.
  intros H t Ht. apply filter_In in Ht. now apply H.
Qed.

Lemma lastViewTarget_wf (visited : list TagView) (view : TagView) :
  Forall (fun t => fullPath t <> None) visited ->
  forall latest, lastElement visited = Some latest ->
  exists fp, fullPath latest = Some fp
             /\ lastViewTarget visited view = ToString fp.
Proof.
  intros Hwf latest Hlast. unfold lastViewTarget. rewrite Hlast.
  rewrite Forall_forall in Hwf.
  specialize (Hwf latest (lastElement_In _ _ Hlast)).
  destruct (fullPath latest) as [fp|]; [|congruence].
  now exists fp.
Qed.

Lemma lastViewTarget_empty (view : TagView) :
  lastViewTarget [] view
  = if strictEq (name view) (Some "Dashboard")
    then ToObject ("/redirect" ++ interpolate (path view))%string (query view)
    else ToString "/".
Proof. reflexivity. Qed.

(** ** The registry invariants

    Registration keeps both invariants the statements below assume, and so
    does every close operation. *)

Lemma filterAffixTagsOf_fullPath (resolve : string -> string -> string) :
  forall (r : RouteRecordRaw) (basePath : string) (tag : TagView),
    In tag (filterAffixTagsOf resolve basePath r) -> fullPath tag <> None.
Proof.
  fix IH 1. intros [rpath rname rmeta rchildren] basePath tag.
  cbn [filterAffixTagsOf]. rewrite in_app_iff. intros [H|H].
  - destruct (truthy (isAffixMeta rmeta)); [|contradiction].
    destruct H as [<-|[]]. discriminate.
  - revert H. induction rchildren as [|child rest IHrest]; [contradiction|].
    rewrite in_app_iff. intros [H|H].
    + exact (IH child rpath tag H).
    + exact (IHrest H).
Qed.

Lemma filterAffixTags_fullPath (resolve : string -> string -> string)
  (routes : list RouteRecordRaw) (basePath : string) :
  Forall (fun t => fullPath t <> None) (filterAffixTags resolve routes basePath).
Proof.
  apply Forall_forall. intros tag H. unfold filterAffixTags in H.
  apply in_flat_map in H. destruct H as (r & _ & H).
  now apply filterAffixTagsOf_fullPath in H.
Qed.

Lemma registryWellFormed_add (view : TagView) (st : StoreState) :
  fullPath view <> None ->
  registryWellFormed st -> registryWellFormed (addVisitedView view st).
Proof.
  intros Hv Hst. unfold registryWellFormed. simpl. unfold spec_addVisitedView.
  destruct (existsb _ _); [exact Hst|]. simpl.
  apply Forall_app. split; [exact Hst|]. now constructor.
Qed.

Lemma uniquePaths_add (view : TagView) (st : StoreState) :
  uniquePaths st -> uniquePaths (addVisitedView view st).
Proof.
  intro Hst. unfold uniquePaths. simpl. unfold spec_addVisitedView.
  destruct (existsb (samePath view) (visitedViews st)) eqn:E; [exact Hst|].
  simpl. rewrite map_app. simpl.
  apply NoDup_app; [exact Hst | repeat constructor; simpl; tauto |].
  intros p Hp [<-|[]].
  apply in_map_iff in Hp. destruct Hp as (t & Ht & Hin).
  apply Bool.not_true_iff_false in E. apply E.
  apply existsb_exists. exists t. split; [exact Hin|].
  unfold samePath. now apply strictEq_true.
Qed.

Lemma registryWellFormed_initTags (resolve : string -> string -> string)
  (routes : list RouteRecordRaw) (c : Component) :
  registryWellFormed (store c) ->
  registryWellFormed (store (initTags resolve routes c)).
Proof.
  unfold initTags. intro Hc.
  pose proof (filterAffixTags_fullPath resolve routes "/") as Htags.
  change (store c) with (store (setAffixTags (filterAffixTags resolve routes "/") c)) in Hc.
  revert Hc. generalize (setAffixTags (filterAffixTags resolve routes "/") c).
  induction Htags as [|tag tags Htag _ IH]; intros c0 Hc0; [exact Hc0|].
  cbn [fold_left]. apply IH.
  destruct (truthyString (name tag)); [|exact Hc0].
  now apply registryWellFormed_add.
Qed.

Lemma registryWellFormed_routeChanged (r : RouteLocationNormalized)
  (c : Component) :
  registryWellFormed (store c) ->
  registryWellFormed (store (routeChanged r c)).
Proof.
  intro Hc. unfold routeChanged, addTags.
  destruct (truthyString (r_name r)); [|exact Hc].
  cbn [withStore store].
  assert (H : registryWellFormed (addVisitedView (tagOfRoute r) (store c)))
    by (apply registryWellFormed_add; [discriminate | exact Hc]).
  revert H. generalize (addVisitedView (tagOfRoute r) (store c)). intros st H.
  simpl. unfold spec_addCachedView.
  destruct (name (tagOfRoute r)); [destruct (existsb _ _)|]; exact H.
Qed.

Lemma uniquePaths_routeChanged (r : RouteLocationNormalized) (c : Component) :
  uniquePaths (store c) -> uniquePaths (store (routeChanged r c)).
Proof.
  intro Hc. unfold routeChanged, addTags.
  destruct (truthyString (r_name r)); [|exact Hc].
  cbn [withStore store].
  assert (H : uniquePaths (addVisitedView (tagOfRoute r) (store c)))
    by now apply uniquePaths_add.
  revert H. generalize (addVisitedView (tagOfRoute r) (store c)). intros st H.
  simpl. unfold spec_addCachedView.
  destruct (name (tagOfRoute r)); [destruct (existsb _ _)|]; exact H.
Qed.

Lemma uniquePaths_filter (f : TagView -> bool) (st : StoreState) :
  uniquePaths st -> NoDup (map path (filter f (visitedViews st))).
Proof.
  unfold uniquePaths. induction (visitedViews st) as [|a l IH]; [trivial|].
  simpl. intro H. inversion H as [|x xs Hnotin Hnd]; subst.
  destruct (f a); [|now apply IH]. simpl. constructor; [|now apply IH].
  intro Hin. apply Hnotin. apply in_map_iff in Hin.
  destruct Hin as (t & Ht & Hin). apply filter_In in Hin.
  apply in_map_iff. exists t. tauto.
Qed.

(** ** Close one *)

Section CloseOne.

Variable c : Component.
Variable v : TagView.

Lemma closeSelectedTag_store :
  store (closeSelectedTag v c) = delCachedView v (delVisitedView v (store c)).
Proof.
  unfold closeSelectedTag.
  destruct (isActive _ v); [rewrite toLastView_store|]; reflexivity.
Qed.

Lemma closeSelectedTag_visited :
  visitedViews (store (closeSelectedTag v c))
  = filter (fun t => negb (samePath t v)) (visitedViews (store c)).
Proof.
  rewrite closeSelectedTag_store, visited_delCachedView. reflexivity.
Qed.

Lemma closeSelectedTag_calls :
  routerCalls (closeSelectedTag v c)
  = if isActive c v
    then routerCalls c
         ++ [Push (lastViewTarget (visitedViews (store (closeSelectedTag v c))) v)]
    else routerCalls c.
Proof.
  rewrite closeSelectedTag_visited.
  unfold closeSelectedTag.
  change (isActive (withStore (delCachedView v) (withStore (delVisitedView v) c)) v)
    with (isActive c v).
  destruct (isActive c v); [|reflexivity].
  rewrite toLastView_calls. simpl routerCalls at 1.
  do 3 f_equal. simpl. now rewrite visited_delCachedView.
Qed.

End CloseOne.

(** C1. [closeSelectedTag v] removes [v] from the visited views and from the
    cached views. A navigation is issued exactly when [v] is the active view
    (its path is the current route path), and then exactly one, by
    [router.push]: to the full path of the last of the remaining visited
    views; when none remains, to ['/redirect' + v.path] with [v.query] if the
    name of [v] is ["Dashboard"], and to ['/'] otherwise. Closing a view that
    is not active pushes nothing. The registry is assumed to hold views with
    a full path, as registration builds them. *)
Theorem closeOne_removes_and_redirects (c : Component) (v : TagView)
  (Hwf : registryWellFormed (store c)) :
  let c' := closeSelectedTag v c in
  (* removed from both collections, the other entries stay *)
  (forall t, In t (visitedViews (store c'))
             <-> In t (visitedViews (store c)) /\ path t <> path v)
  /\ (forall n, In n (cachedViews (store c'))
                <-> In n (cachedViews (store c)) /\ name v <> Some n)
  (* a view that is not active: no navigation *)
  /\ (path v <> Some (r_path (route c)) -> routerCalls c' = routerCalls c)
  (* the active view: one push, to the last survivor or home *)
  /\ (path v = Some (r_path (route c)) ->
      exists to,
        routerCalls c' = routerCalls c ++ [Push to]
        /\ (forall latest,
              lastElement (visitedViews (store c')) = Some latest ->
              exists fp, fullPath latest = Some fp /\ to = ToString fp)
        /\ (visitedViews (store c') = [] ->
            (name v = Some "Dashboard" ->
             to = ToObject ("/redirect" ++ r_path (route c))%string (query v))
            /\ (name v <> Some "Dashboard" -> to = ToString "/"))).
Proof.
  intro c'. subst c'.
  split; [|split; [|split]].
  - intro t. rewrite closeSelectedTag_store, visited_delCachedView.
    apply in_delVisitedView.
  - intro n. rewrite closeSelectedTag_store, in_delCachedView. reflexivity.
  - intro Hna. rewrite closeSelectedTag_calls.
    apply strictEq_false in Hna. unfold isActive. now rewrite Hna.
  - intro Ha.
    exists (lastViewTarget (visitedViews (store (closeSelectedTag v c))) v).
    rewrite closeSelectedTag_calls at 1.
    pose proof Ha as Hact. apply strictEq_true in Hact.
    unfold isActive. rewrite Hact.
    split; [reflexivity|]. split.
    + intros latest Hlast.
      apply lastViewTarget_wf; [|exact Hlast].
      rewrite closeSelectedTag_visited.
      now apply registryWellFormed_filter.
    + intros ->. rewrite lastViewTarget_empty, Ha. simpl interpolate.
      split.
      * intros ->. reflexivity.
      * intro Hn. apply strictEq_false in Hn. now rewrite Hn.
Qed.

(** Closing [/kb/list] while it is the active route pushes the full path of
    the last remaining view, [/kb/edit?id=3]. *)
Lemma closeOne_removes_and_redirects_witness :
  registryWellFormed (store Sample.onList)
  /\ routerCalls (closeSelectedTag Sample.kbList Sample.onList)
     = [Push (ToString "/kb/edit?id=3")].
Proof.
  assert (Hwf : registryWellFormed (store Sample.onList)).
  { repeat constructor; discriminate. }
  split; [exact Hwf|].
  destruct (closeOne_removes_and_redirects Sample.onList Sample.kbList Hwf)
    as (_ & _ & _ & Hnav).
  destruct (Hnav eq_refl) as (to & Hcalls & Hlast & _).
  destruct (Hlast Sample.kbEdit eq_refl) as (fp & Hfp & ->).
  injection Hfp as <-. exact Hcalls.
Defined.

(** ** Close others and close all: what is left in the store *)

Lemma closeOthersTags_store (c : Component) :
  store (closeOthersTags c)
  = delOthersCachedViews (selectedTag c)
      (delOthersVisitedViews (selectedTag c) (store c)).
Proof.
  unfold closeOthersTags.
  destruct (fullPath (selectedTag c)) as [fp|]; [|reflexivity].
  destruct (negb (fp =? r_path (route c))%string); reflexivity.
Qed.

Lemma closeOthersTags_visited (c : Component) :
  visitedViews (store (closeOthersTags c))
  = filter (fun t => truthy (isAffix t) || samePath t (selectedTag c))
           (visitedViews (store c)).
Proof. rewrite closeOthersTags_store. reflexivity. Qed.

Lemma closeAllTags_store (view : TagView) (c : Component) :
  store (closeAllTags view c)
  = delAllCachedViews (delAllVisitedViews (store c)).
Proof.
  unfold closeAllTags.
  match goal with |- context [if ?b then _ else _] => destruct b end;
    [|rewrite toLastView_store]; reflexivity.
Qed.

Lemma closeAllTags_visited (view : TagView) (c : Component) :
  visitedViews (store (closeAllTags view c))
  = filter (fun t => truthy (isAffix t)) (visitedViews (store c)).
Proof. rewrite closeAllTags_store. reflexivity. Qed.

Lemma close_keeps_registryWellFormed (view : TagView) (c : Component) :
  registryWellFormed (store c) ->
  registryWellFormed (store (closeSelectedTag view c))
  /\ registryWellFormed (store (closeOthersTags c))
  /\ registryWellFormed (store (closeAllTags view c)).
Proof.
  intro H. unfold registryWellFormed.
  rewrite closeSelectedTag_visited, closeOthersTags_visited, closeAllTags_visited.
  repeat split; now apply registryWellFormed_filter.
Qed.

Lemma close_keeps_uniquePaths (view : TagView) (c : Component) :
  uniquePaths (store c) ->
  uniquePaths (store (closeSelectedTag view c))
  /\ uniquePaths (store (closeOthersTags c))
  /\ uniquePaths (store (closeAllTags view c)).
Proof.
  intro H. unfold uniquePaths.
  rewrite closeSelectedTag_visited, closeOthersTags_visited, closeAllTags_visited.
  repeat split; now apply uniquePaths_filter.
Qed.

Lemma uniquePaths_same (st : StoreState) (a b : TagView) :
  uniquePaths st ->
  In a (visitedViews st) -> In b (visitedViews st) ->
  path a = path b -> a = b.
Proof.
  unfold uniquePaths. induction (visitedViews st) as [|x xs IH]; simpl.
  - contradiction.
  - intros Hnd Ha Hb Hp. inversion Hnd as [|y ys Hnotin Hnd']; subst.
    destruct Ha as [->|Ha], Hb as [->|Hb].
    + reflexivity.
    + exfalso. apply Hnotin. rewrite Hp. now apply in_map.
    + exfalso. apply Hnotin. rewrite <- Hp. now apply in_map.
    + now apply IH.
Qed.

(** Without the guards of the template the handler does close a pinned
    view: [closeSelectedTag] itself does not look at [affix]. *)
Lemma closeSelectedTag_ignores_affix (c : Component) (V : TagView) :
  ~ In V (visitedViews (store (closeSelectedTag V c))).
Proof.
  rewrite closeSelectedTag_store, visited_delCachedView, in_delVisitedView.
  tauto.
Qed.

(** C2. A pinned view (one whose [meta.affix] is set) that is in the registry
    stays in the registry under every close gesture of the tag strip: the
    middle click, the close icon and the close entry of the context menu do
    nothing on a pinned view, closing any other registered view leaves it in
    place, and so do close-others and close-all. *)
Theorem affixed_view_survives_close (c : Component) (V : TagView)
  (Haffix : truthy (isAffix V) = true)
  (Hin : In V (visitedViews (store c))) :
  (* close one, on the pinned view itself *)
  In V (visitedViews (store (clickMiddle V c)))
  /\ In V (visitedViews (store (clickCloseIcon V c)))
  /\ (selectedTag c = V -> In V (visitedViews (store (clickMenuClose c))))
  (* close one, on any registered view *)
  /\ (uniquePaths (store c) ->
      forall t, In t (visitedViews (store c)) ->
        In V (visitedViews (store (clickMiddle t c)))
        /\ In V (visitedViews (store (clickCloseIcon t c)))
        /\ (selectedTag c = t -> In V (visitedViews (store (clickMenuClose c)))))
  (* close others, close all *)
  /\ In V (visitedViews (store (closeOthersTags c)))
  /\ (forall view, In V (visitedViews (store (closeAllTags view c)))).
Proof.
  assert (Hguard : forall t, t = V \/
            (uniquePaths (store c) /\ In t (visitedViews (store c))) ->
            In V (visitedViews
                    (store (if negb (truthy (isAffix t))
                            then closeSelectedTag t c else c)))).
  { intros t Ht.
    destruct (truthy (isAffix t)) eqn:Ea; simpl; [exact Hin|].
    destruct Ht as [->|[Hu Ht]]; [congruence|].
    rewrite closeSelectedTag_store, visited_delCachedView.
    apply in_delVisitedView. split; [exact Hin|].
    intro Hp. apply (uniquePaths_same _ _ _ Hu Hin Ht) in Hp. congruence. }
  split; [|split; [|split; [|split; [|split]]]].
  - apply Hguard. now left.
  - apply Hguard. now left.
  - intro Hsel. unfold clickMenuClose. rewrite Hsel. apply Hguard. now left.
  - intros Hu t Ht. split; [|split].
    + apply Hguard. now right.
    + apply Hguard. now right.
    + intro Hsel. unfold clickMenuClose. rewrite Hsel. apply Hguard. now right.
  - rewrite closeOthersTags_visited. apply filter_In.
    split; [exact Hin|]. now rewrite Haffix.
  - intro view. rewrite closeAllTags_visited. apply filter_In. now split.
Qed.

(** The pinned dashboard stays through a middle click on itself, a close of
    [/kb/list], close-others and close-all. *)
Lemma affixed_view_survives_close_witness :
  truthy (isAffix Sample.dashboard) = true
  /\ In Sample.dashboard (visitedViews (store Sample.onList))
  /\ In Sample.dashboard
        (visitedViews (store (clickMiddle Sample.dashboard Sample.onList)))
  /\ In Sample.dashboard
        (visitedViews (store (clickCloseIcon Sample.kbList Sample.onList)))
  /\ In Sample.dashboard
        (visitedViews (store (closeAllTags Sample.kbList Sample.onList))).
Proof.
  assert (Ha : truthy (isAffix Sample.dashboard) = true) by reflexivity.
  assert (Hi : In Sample.dashboard (visitedViews (store Sample.onList)))
    by (left; reflexivity).
  destruct (affixed_view_survives_close Sample.onList Sample.dashboard Ha Hi)
    as (H1 & _ & _ & H4 & _ & H6).
  assert (Hu : uniquePaths (store Sample.onList)).
  { unfold uniquePaths. simpl.
    repeat constructor; simpl; intuition discriminate. }
  repeat split; try assumption.
  - refine (proj1 (proj2 (H4 Hu Sample.kbList _))). right. left. reflexivity.
  - apply H6.
Defined.

(** ** Close others *)

Lemma closeOthersTags_calls (c : Component) :
  routerCalls (closeOthersTags c)
  = match fullPath (selectedTag c) with
    | Some fp =>
        if (fp =? r_path (route c))%string
        then routerCalls c
        else routerCalls c ++ [Push (ToString fp)]
    | None => routerCalls c
    end.
Proof.
  unfold closeOthersTags.
  destruct (fullPath (selectedTag c)) as [fp|]; [|reflexivity].
  destruct (fp =? r_path (route c))%string; reflexivity.
Qed.

(** With the store of the specification the views left by close-others are
    the kept view and the pinned ones. *)
Lemma closeOthersTags_survivors (c : Component) :
  uniquePaths (store c) ->
  In (selectedTag c) (visitedViews (store c)) ->
  forall t,
    In t (visitedViews (store (closeOthersTags c)))
    <-> t = selectedTag c
        \/ (In t (visitedViews (store c)) /\ truthy (isAffix t) = true).
Proof.
  intros Hu Hsel t. rewrite closeOthersTags_visited, filter_In.
  rewrite Bool.orb_true_iff. unfold samePath. rewrite strictEq_true.
  split.
  - intros [Ht [Ha|Hp]]; [now right|left].
    now apply (uniquePaths_same _ _ _ Hu Ht Hsel).
  - intros [->|[Ht Ha]]; split; auto.
Qed.

Lemma closeOthersTags_cached (c : Component) (n : string) :
  In n (cachedViews (store (closeOthersTags c)))
  <-> In n (cachedViews (store c))
      /\ (name (selectedTag c) = Some n
          \/ affixedName (visitedViews (store (closeOthersTags c))) n = true).
Proof.
  rewrite closeOthersTags_store. simpl. rewrite filter_In.
  rewrite Bool.orb_true_iff, strictEq_true. tauto.
Qed.

(** When the kept view has no query (its full path is its path), close-others
    pushes its path exactly when it is not the active view. *)
Lemma closeOthersTags_calls_plain (c : Component) (p : string) :
  fullPath (selectedTag c) = Some p ->
  path (selectedTag c) = Some p ->
  routerCalls (closeOthersTags c)
  = if isActive c (selectedTag c)
    then routerCalls c
    else routerCalls c ++ [Push (ToString p)].
Proof.
  intros Hf Hp. rewrite closeOthersTags_calls, Hf.
  unfold isActive. rewrite Hp. reflexivity.
Qed.

(** C3, on the code. The user is on [/kb/edit?id=3] and chooses close-others
    on that very tab: the current route path [/kb/edit] is the path of the
    kept view, and yet [closeOthersTags] pushes [/kb/edit?id=3], because it
    compares the full path of the kept view with the path of the route. *)
Theorem closeOthers_pushes_on_the_kept_view :
  path (selectedTag Sample.onEdit) = Some (r_path (route Sample.onEdit))
  /\ isActive Sample.onEdit (selectedTag Sample.onEdit) = true
  /\ routerCalls (closeOthersTags Sample.onEdit)
     = [Push (ToString "/kb/edit?id=3")]
  /\ visitedViews (store (closeOthersTags Sample.onEdit))
     = [Sample.dashboard; Sample.kbEdit].
Proof. repeat split. Qed.

(** ** Close all *)

Lemma onOneOf_true (c : Component) (tags : list TagView) :
  onOneOf c tags = true
  <-> exists tag, In tag tags /\ path tag = Some (r_path (route c)).
Proof.
  unfold onOneOf. rewrite existsb_exists.
  split; intros (tag & Hin & H); exists tag; split; auto;
    now apply strictEq_true.
Qed.

Lemma onOneOf_paths (c : Component) (tags1 tags2 : list TagView) :
  (forall p, In p (map path tags1) <-> In p (map path tags2)) ->
  onOneOf c tags1 = onOneOf c tags2.
Proof.
  intro H. apply Bool.eq_true_iff_eq. rewrite !onOneOf_true.
  specialize (H (Some (r_path (route c)))). rewrite !in_map_iff in H.
  split; intros (tag & Hin & Hp).
  - destruct (proj1 H (ex_intro _ tag (conj Hp Hin))) as (u & Hu & Hin').
    now exists u.
  - destruct (proj2 H (ex_intro _ tag (conj Hp Hin))) as (u & Hu & Hin').
    now exists u.
Qed.

Lemma closeAllTags_calls (view : TagView) (c : Component) :
  routerCalls (closeAllTags view c)
  = if onOneOf c (affixTags c)
    then routerCalls c
    else routerCalls c
         ++ [Push (lastViewTarget (visitedViews (store (closeAllTags view c))) view)].
Proof.
  rewrite closeAllTags_visited. unfold closeAllTags.
  change (existsb _ (affixTags _)) with (onOneOf c (affixTags c)).
  destruct (onOneOf c (affixTags c)); [reflexivity|].
  rewrite toLastView_calls. reflexivity.
Qed.

(** [initTags] collects a pinned route without a name into [affixTags] and
    does not register it; moving to [/kb/list] and then to the pinned route
    gives the store and the pinned tags of [Sample.onNotice]. *)
Lemma onNotice_reachable :
  let c := routeChanged Sample.noticeRoute
             (routeChanged Sample.kbListRoute
                (initTags Sample.resolveAbsolute Sample.noticeRoutes Sample.fresh)) in
  openMenu Sample.kbList c = Sample.onNotice.
Proof. reflexivity. Qed.

(** C4, as the specification words it, fails on the code: on
    [Sample.onNotice] the current route [/notice] belongs to no view of the
    registry, close-all leaves the registry empty, and nothing is pushed,
    where the rule of close-one would push ['/']. *)
Lemma closeAll_by_survivors_fails :
  ~ closeAllNavigatesBySurvivors Sample.kbList Sample.onNotice.
Proof.
  unfold closeAllNavigatesBySurvivors. simpl. discriminate.
Qed.

(** When the pinned tags of the component and the pinned views of the
    registry have the same paths, the navigation of close-all is decided by
    the surviving views, as the specification words it. *)
Lemma closeAll_by_survivors_when_synced (view : TagView) (c : Component) :
  (forall p, In p (map path (affixTags c))
             <-> In p (map path (filter (fun t => truthy (isAffix t))
                                        (visitedViews (store c))))) ->
  closeAllNavigatesBySurvivors view c.
Proof.
  intro Hsync. unfold closeAllNavigatesBySurvivors.
  rewrite closeAllTags_calls.
  rewrite (onOneOf_paths c _ _ Hsync), <- (closeAllTags_visited view c).
  destruct (onOneOf c _); reflexivity.
Qed.

(** C4, amended. [closeAllTags view] leaves in the visited views exactly the
    pinned ones and in the cached views exactly the names of pinned views.
    Nothing is pushed when the current route path is the path of one of the
    pinned tags the component collected from the route configuration
    ([affixTags]); otherwise one push is issued by the rule of close-one: to
    the full path of the last remaining view, and when none remains to
    ['/redirect' + view.path] for the view named ["Dashboard"] and to ['/']
    for any other. *)
Theorem closeAll_keeps_affixed_and_redirects (view : TagView) (c : Component)
  (Hwf : registryWellFormed (store c)) :
  let c' := closeAllTags view c in
  (forall t, In t (visitedViews (store c'))
             <-> In t (visitedViews (store c)) /\ truthy (isAffix t) = true)
  /\ (forall n, In n (cachedViews (store c'))
                <-> In n (cachedViews (store c))
                    /\ affixedName (visitedViews (store c)) n = true)
  /\ (onOneOf c (affixTags c) = true -> routerCalls c' = routerCalls c)
  /\ (onOneOf c (affixTags c) = false ->
      exists to,
        routerCalls c' = routerCalls c ++ [Push to]
        /\ (forall latest,
              lastElement (visitedViews (store c')) = Some latest ->
              exists fp, fullPath latest = Some fp /\ to = ToString fp)
        /\ (visitedViews (store c') = [] ->
            (name view = Some "Dashboard" ->
             to = ToObject ("/redirect" ++ interpolate (path view))%string
                           (query view))
            /\ (name view <> Some "Dashboard" -> to = ToString "/"))).
Proof.
  intro c'. subst c'.
  split; [|split; [|split]].
  - intro t. rewrite closeAllTags_visited. apply filter_In.
  - intro n. rewrite closeAllTags_store. simpl. rewrite filter_In.
    assert (E : forall l, affixedName (filter (fun v => truthy (isAffix v)) l) n
                          = affixedName l n).
    { induction l as [|x xs IH]; [reflexivity|]. simpl.
      destruct (truthy (isAffix x)) eqn:Ex; simpl; rewrite ?Ex, IH; reflexivity. }
    rewrite E. reflexivity.
  - intro H. rewrite closeAllTags_calls, H. reflexivity.
  - intro H.
    exists (lastViewTarget (visitedViews (store (closeAllTags view c))) view).
    rewrite closeAllTags_calls at 1. rewrite H.
    split; [reflexivity|]. split.
    + intros latest Hlast. apply lastViewTarget_wf; [|exact Hlast].
      rewrite closeAllTags_visited. now apply registryWellFormed_filter.
    + intros ->. rewrite lastViewTarget_empty. split.
      * intros ->. reflexivity.
      * intro Hn. apply strictEq_false in Hn. now rewrite Hn.
Qed.

(** Close-all from [/kb/edit] leaves the dashboard alone and pushes its
    path. *)
Lemma closeAll_keeps_affixed_and_redirects_witness :
  registryWellFormed (store Sample.onEdit)
  /\ visitedViews (store (closeAllTags Sample.kbEdit Sample.onEdit))
     = [Sample.dashboard]
  /\ routerCalls (closeAllTags Sample.kbEdit Sample.onEdit)
     = [Push (ToString "/dashboard")].
Proof.
  assert (Hwf : registryWellFormed (store Sample.onEdit)).
  { repeat constructor; discriminate. }
  split; [exact Hwf|]. split; [reflexivity|].
  destruct (closeAll_keeps_affixed_and_redirects Sample.kbEdit Sample.onEdit Hwf)
    as (_ & _ & _ & Hnav).
  destruct (Hnav eq_refl) as (to & Hcalls & Hlast & _).
  destruct (Hlast Sample.dashboard eq_refl) as (fp & Hfp & ->).
  injection Hfp as <-. exact Hcalls.
Defined.

(** ** Refresh *)

(** C5. [refreshSelectedTag v] leaves the visited views as they are (the
    entry of [v] stays, nothing is added), removes the name of [v] from the
    cached views and nothing else, and issues exactly one navigation, a
    redirect to the path of [v]: ['/redirect' + v.path] with [v.query]. *)
Theorem refresh_drops_cache_only (c : Component) (v : TagView) :
  let c' := refreshSelectedTag v c in
  visitedViews (store c') = visitedViews (store c)
  /\ (forall n, In n (cachedViews (store c'))
                <-> In n (cachedViews (store c)) /\ name v <> Some n)
  /\ routerCalls c'
     = routerCalls c
       ++ [Replace (ToObject ("/redirect" ++ interpolate (path v))%string
                             (query v))].
Proof.
  intro c'. subst c'. unfold refreshSelectedTag.
  split; [|split].
  - simpl store. apply visited_delCachedView.
  - intro n. simpl store. apply in_delCachedView.
  - reflexivity.
Qed.

(** ** Which primitive of the router is called *)

Section AnyStore.

Context (anyStore : TagsViewStore).

Lemma pushesOnly_none (a b : Component) :
  routerCalls b = routerCalls a -> pushesOnly a b.
Proof.
  intro H. exists []. rewrite H, app_nil_r. split; constructor.
Qed.

Lemma pushesOnly_one (a b : Component) (to : RouteLocationRaw) :
  routerCalls b = routerCalls a ++ [Push to] -> pushesOnly a b.
Proof.
  intro H. exists [Push to]. split; [exact H|].
  constructor; [now exists to | constructor].
Qed.

Lemma closeSelectedTag_pushesOnly (v : TagView) (c : Component) :
  pushesOnly c (closeSelectedTag v c).
Proof.
  unfold closeSelectedTag.
  destruct (isActive _ v).
  - apply pushesOnly_one with (to := lastViewTarget
      (visitedViews (store (withStore (delCachedView v)
                              (withStore (delVisitedView v) c)))) v).
    now rewrite toLastView_calls.
  - now apply pushesOnly_none.
Qed.

Lemma closeOthersTags_pushesOnly (c : Component) :
  pushesOnly c (closeOthersTags c).
Proof.
  unfold closeOthersTags.
  destruct (fullPath (selectedTag c)) as [fp|]; [|now apply pushesOnly_none].
  destruct (negb (fp =? r_path (route c))%string).
  - now apply pushesOnly_one with (to := ToString fp).
  - now apply pushesOnly_none.
Qed.

Lemma closeAllTags_pushesOnly (v : TagView) (c : Component) :
  pushesOnly c (closeAllTags v c).
Proof.
  unfold closeAllTags.
  match goal with |- context [if ?b then _ else _] => destruct b end.
  - now apply pushesOnly_none.
  - apply pushesOnly_one with (to := lastViewTarget
      (visitedViews (store (withStore delAllCachedViews
                              (withStore delAllVisitedViews c)))) v).
    now rewrite toLastView_calls.
Qed.

(** C10. Whatever the store does, [refreshSelectedTag v] calls
    [router.replace], once, with the path ['/redirect' + v.path] and the
    query of [v], and every call of the router made by [closeSelectedTag],
    [closeOthersTags] and [closeAllTags] is a call of [router.push]. *)
Theorem refresh_replaces_close_pushes (v : TagView) (c : Component) :
  routerCalls (refreshSelectedTag v c)
  = routerCalls c
    ++ [Replace (ToObject ("/redirect" ++ interpolate (path v))%string (query v))]
  /\ (exists calls,
        routerCalls (closeSelectedTag v c) = routerCalls c ++ calls
        /\ Forall (fun call => exists to, call = Push to) calls)
  /\ (exists calls,
        routerCalls (closeOthersTags c) = routerCalls c ++ calls
        /\ Forall (fun call => exists to, call = Push to) calls)
  /\ (exists calls,
        routerCalls (closeAllTags v c) = routerCalls c ++ calls
        /\ Forall (fun call => exists to, call = Push to) calls).
Proof.
  split; [reflexivity|]. split; [|split].
  - apply closeSelectedTag_pushesOnly.
  - apply closeOthersTags_pushesOnly.
  - apply closeAllTags_pushesOnly.
Qed.

End AnyStore.

(* ================================================================== *)
(** * Properties of the theme engine *)
(* ================================================================== *)

Import Theme.

(** ** The reveal radius *)

Section Radius.

Open Scope R_scope.

Variables x y w h : R.
Hypothesis Hw : 0 <= w.
Hypothesis Hh : 0 <= h.

Lemma farX_bounds :
  x * x <= Rmax x (w - x) * Rmax x (w - x)
  /\ (x - w) * (x - w) <= Rmax x (w - x) * Rmax x (w - x).
Proof.
  unfold Rmax. destruct (Rle_dec x (w - x)); split; nra.
Qed.

Lemma farY_bounds :
  y * y <= Rmax y (h - y) * Rmax y (h - y)
  /\ (y - h) * (y - h) <= Rmax y (h - y) * Rmax y (h - y).
Proof.
  unfold Rmax. destruct (Rle_dec y (h - y)); split; nra.
Qed.

Lemma farX_attained :
  Rmax x (w - x) * Rmax x (w - x) = x * x
  \/ Rmax x (w - x) * Rmax x (w - x) = (x - w) * (x - w).
Proof.
  unfold Rmax. destruct (Rle_dec x (w - x)); [right|left]; ring.
Qed.

Lemma farY_attained :
  Rmax y (h - y) * Rmax y (h - y) = y * y
  \/ Rmax y (h - y) * Rmax y (h - y) = (y - h) * (y - h).
Proof.
  unfold Rmax. destruct (Rle_dec y (h - y)); [right|left]; ring.
Qed.

(** No corner is farther from the click than the radius. *)
Lemma corner_within_radius (cx cy : R) :
  (cx = 0 \/ cx = w) -> (cy = 0 \/ cy = h) ->
  distance x y cx cy <= maxRadius x y w h.
Proof.
  intros Hx Hy. unfold distance, maxRadius, hypot.
  apply sqrt_le_1_alt.
  destruct farX_bounds as [X0 Xw], farY_bounds as [Y0 Yh].
  destruct Hx as [-> | ->], Hy as [-> | ->];
    rewrite ?Rminus_0_r; lra.
Qed.

(** The radius is the distance to one of the corners. *)
Lemma radius_is_a_corner :
  exists cx cy,
    (cx = 0 \/ cx = w) /\ (cy = 0 \/ cy = h)
    /\ maxRadius x y w h = distance x y cx cy.
Proof.
  unfold distance, maxRadius, hypot.
  destruct farX_attained as [Ex|Ex], farY_attained as [Ey|Ey];
    rewrite Ex, Ey.
  - exists 0, 0. rewrite !Rminus_0_r. auto.
  - exists 0, h. rewrite !Rminus_0_r. auto.
  - exists w, 0. rewrite !Rminus_0_r. auto.
  - exists w, h. auto.
Qed.

Lemma corner_within_farthest (cx cy : R) :
  (cx = 0 \/ cx = w) -> (cy = 0 \/ cy = h) ->
  distance x y cx cy <= farthestCorner x y w h.
Proof.
  intros [-> | ->] [-> | ->]; unfold farthestCorner.
  - eapply Rle_trans; [apply Rbasic_fun.Rmax_l|apply Rbasic_fun.Rmax_l].
  - eapply Rle_trans; [apply Rbasic_fun.Rmax_l|apply Rbasic_fun.Rmax_r].
  - eapply Rle_trans; [apply Rbasic_fun.Rmax_r|apply Rbasic_fun.Rmax_l].
  - eapply Rle_trans; [apply Rbasic_fun.Rmax_r|apply Rbasic_fun.Rmax_r].
Qed.

End Radius.

(** For a click at [(x, y)] in a viewport of width [w] and height [h] (both
    non-negative), [hypot(max(x, w - x), max(y, h - y))] is the largest of
    the Euclidean distances from [(x, y)] to the corners [(0,0)], [(w,0)],
    [(0,h)] and [(w,h)]. Coordinates are real numbers. *)
Theorem maxRadius_is_farthest_corner (x y w h : R)
  (Hw : (0 <= w)%R) (Hh : (0 <= h)%R) :
  maxRadius x y w h = farthestCorner x y w h.
Proof.
  apply Rle_antisym.
  - destruct (radius_is_a_corner x y w h) as (cx & cy & Hx & Hy & ->).
    now apply corner_within_farthest.
  - unfold farthestCorner.
    repeat apply Rmax_lub; apply corner_within_radius; auto.
Qed.

(** A click at [(3, 4)] in a viewport of 10 by 8. *)
Lemma maxRadius_is_farthest_corner_witness :
  (0 <= 10)%R /\ (0 <= 8)%R
  /\ maxRadius 3 4 10 8 = farthestCorner 3 4 10 8.
Proof.
  assert (Hw : (0 <= 10)%R) by lra.
  assert (Hh : (0 <= 8)%R) by lra.
  repeat split; try assumption.
  exact (maxRadius_is_farthest_corner 3 4 10 8 Hw Hh).
Defined.

(** ** The state swap of [setTheme] *)

(** The page once [setTheme] has set its CSS variables, before the swap. *)
Lemma setTheme_swap (ev : MouseEvent) (value : ThemeName) (p : Page) :
  exists q,
    setTheme ev value p
    = (if hasStartViewTransition q
       then document_startViewTransition (AssignActiveThemeName value) q
       else call (AssignActiveThemeName value) q)
    /\ activeThemeName q = activeThemeName p
    /\ hasStartViewTransition q = hasStartViewTransition p
    /\ updateCallbacks q = updateCallbacks p
    /\ classList q = classList p
    /\ storedThemeName q = storedThemeName p.
Proof.
  unfold setTheme.
  destruct (value =? "dark")%string; [|destruct (value =? "dark-blue")%string];
    eexists; (split; [reflexivity|]); repeat split.
Qed.

Lemma setTheme_immediate (ev : MouseEvent) (value : ThemeName) (p : Page) :
  hasStartViewTransition p = false ->
  activeThemeName (setTheme ev value p) = value
  /\ updateCallbacks (setTheme ev value p) = updateCallbacks p.
Proof.
  intro Hno.
  destruct (setTheme_swap ev value p) as (q & -> & _ & Hq & Hcb & _).
  rewrite Hq, Hno. simpl. auto.
Qed.

Lemma setTheme_deferred (ev : MouseEvent) (value : ThemeName) (p : Page) :
  hasStartViewTransition p = true ->
  activeThemeName (setTheme ev value p) = activeThemeName p
  /\ updateCallbacks (setTheme ev value p)
     = updateCallbacks p ++ [AssignActiveThemeName value].
Proof.
  intro Hyes.
  destruct (setTheme_swap ev value p) as (q & -> & Ha & Hq & Hcb & _).
  rewrite Hq, Hyes. simpl. now rewrite Ha, Hcb.
Qed.

Lemma runUpdateCallbacks_last (p : Page) (hs : list Handler) (value : ThemeName) :
  updateCallbacks p = hs ++ [AssignActiveThemeName value] ->
  activeThemeName (runUpdateCallbacks p) = value.
Proof.
  intro H. unfold runUpdateCallbacks. rewrite H, fold_left_app. reflexivity.
Qed.

(** C8. The reveal radius [setTheme] computes and stores in the variable
    [--v3-theme-r], for a click at [(clientX, clientY)] in a viewport of
    width [innerWidth] and height [innerHeight] (both non-negative), is the
    largest of the Euclidean distances from the click to the four corners
    [(0,0)], [(W,0)], [(0,H)] and [(W,H)] of the viewport, for every theme
    name and in every browser; the click itself is stored in [--v3-theme-x]
    and [--v3-theme-y]. Coordinates are real numbers. *)
Theorem setTheme_radius_is_farthest_corner (ev : MouseEvent)
  (value : ThemeName) (p : Page)
  (Hw : (0 <= innerWidth p)%R) (Hh : (0 <= innerHeight p)%R) :
  getCssVar "--v3-theme-r" (setTheme ev value p)
  = Some (Px (farthestCorner (clientX ev) (clientY ev)
                             (innerWidth p) (innerHeight p)))
  /\ getCssVar "--v3-theme-x" (setTheme ev value p) = Some (Px (clientX ev))
  /\ getCssVar "--v3-theme-y" (setTheme ev value p) = Some (Px (clientY ev)).
Proof.
  rewrite <- (maxRadius_is_farthest_corner _ _ _ _ Hw Hh).
  unfold setTheme.
  destruct (value =? "dark")%string; [|destruct (value =? "dark-blue")%string];
    destruct (hasStartViewTransition _); repeat split.
Qed.

(** A click at [(3, 4)] on the sample page, whose viewport is 10 by 8. *)
Lemma setTheme_radius_is_farthest_corner_witness :
  (0 <= innerWidth Sample.plainPage)%R
  /\ (0 <= innerHeight Sample.plainPage)%R
  /\ getCssVar "--v3-theme-r" (setTheme Sample.click "dark" Sample.plainPage)
     = Some (Px (farthestCorner 3 4 10 8)).
Proof.
  assert (Hw : (0 <= innerWidth Sample.plainPage)%R) by (simpl; lra).
  assert (Hh : (0 <= innerHeight Sample.plainPage)%R) by (simpl; lra).
  split; [exact Hw|]. split; [exact Hh|].
  exact (proj1 (setTheme_radius_is_farthest_corner Sample.click "dark"
                  Sample.plainPage Hw Hh)).
Defined.


(** With it the root element loses the class of the default theme. *)
Lemma bogus_theme_on_the_root :
  classList (themeEffect (setTheme Sample.click "bogus-theme" Sample.plainPage))
  = ["bogus-theme"].
Proof. reflexivity. Qed.

(** The sidebar colours are those of the default theme for every identifier
    other than ["dark"] and ["dark-blue"]. *)
Lemma sidebar_default_palette (ev : MouseEvent) (value : ThemeName) (p : Page) :
  value <> "dark" -> value <> "dark-blue" ->
  getCssVar "--v3-sidebar-bg-color" (setTheme ev value p)
    = Some (Literal "#ffffff")
  /\ getCssVar "--v3-sidebar-text-color" (setTheme ev value p)
    = Some (Literal "#333333")
  /\ getCssVar "--v3-sidebar-hover-bg-color" (setTheme ev value p)
    = Some (Literal "#f5f7fa")
  /\ getCssVar "--v3-sidebar-active-text-color" (setTheme ev value p)
    = Some (Literal "#1890ff").
Proof.
  intros Hd Hb. apply String.eqb_neq in Hd, Hb.
  unfold setTheme. rewrite Hd, Hb.
  destruct (hasStartViewTransition _); repeat split.
Qed.


(** ** When the swap takes place *)

(** C9, as stated, fails on the code: in a browser with view transitions
    the active theme is still the old one right after [setTheme]. *)
Lemma theme_not_swapped_after_the_call :
  hasStartViewTransition Sample.animatedPage = true
  /\ activeThemeName (setTheme Sample.click "dark" Sample.animatedPage)
     <> "dark".
Proof. split; [reflexivity | discriminate]. Qed.

(** C9, amended. Without the view-transition primitive [setTheme] runs the
    handler itself: the active theme is the new one right after the call.
    With it, [setTheme] hands the handler to [document.startViewTransition]
    and returns: right after the call the active theme is still the old one
    and the handler is held by the browser; the active theme is the new one
    once the browser has called the handler. *)
Theorem setTheme_swaps_with_the_callback (ev : MouseEvent) (value : ThemeName)
  (p : Page) :
  (hasStartViewTransition p = false ->
   activeThemeName (setTheme ev value p) = value
   /\ updateCallbacks (setTheme ev value p) = updateCallbacks p)
  /\ (hasStartViewTransition p = true ->
      activeThemeName (setTheme ev value p) = activeThemeName p
      /\ updateCallbacks (setTheme ev value p)
         = updateCallbacks p ++ [AssignActiveThemeName value]
      /\ activeThemeName (runUpdateCallbacks (setTheme ev value p)) = value).
Proof.
  split.
  - apply setTheme_immediate.
  - intro H. destruct (setTheme_deferred ev value p H) as [Ha Hcb].
    repeat split; try assumption.
    now apply runUpdateCallbacks_last with (hs := updateCallbacks p).
Qed.

(** ** The theme class on the root element *)

Lemma registered_cases (value : ThemeName) :
  registered value = true
  <-> value = "normal" \/ value = "dark" \/ value = "dark-blue".
Proof.
  unfold registered. simpl. rewrite !Bool.orb_true_iff, !String.eqb_eq.
  intuition discriminate.
Qed.

(** Among the registered names, only [value] is spared by
    [removeHtmlClass value]. *)
Lemma spared_registered (value c : ThemeName) :
  registered value = true ->
  registered c
  && negb (existsb (String.eqb c)
             (filter (fun n => negb (n =? value)%string) (map name themeList)))
  = (c =? value)%string.
Proof.
  intro Hv. apply registered_cases in Hv.
  destruct (c =? value)%string eqn:E.
  - apply String.eqb_eq in E. subst c.
    destruct Hv as [-> | [-> | ->]]; reflexivity.
  - apply Bool.andb_false_iff.
    destruct (registered c) eqn:Hc; [right|now left].
    apply registered_cases in Hc. apply String.eqb_neq in E.
    destruct Hv as [-> | [-> | ->]], Hc as [-> | [-> | ->]];
      try reflexivity; congruence.
Qed.

Lemma filter_twice {A : Type} (f g : A -> bool) (l : list A) :
  filter f (filter g l) = filter (fun a => f a && g a) l.
Proof.
  induction l as [|a l IH]; [reflexivity|]. simpl.
  destruct (g a); simpl; [destruct (f a); simpl; now rewrite IH|].
  rewrite Bool.andb_false_r. exact IH.
Qed.

Lemma filter_one (value : string) (l : list string) :
  NoDup l ->
  filter (fun c => (c =? value)%string) l
  = if existsb (String.eqb value) l then [value] else [].
Proof.
  induction 1 as [|a l Hnotin Hnd IH]; [reflexivity|]. simpl.
  rewrite (String.eqb_sym value a).
  destruct (a =? value)%string eqn:E; simpl.
  - apply String.eqb_eq in E. subst a. rewrite IH.
    destruct (existsb (String.eqb value) l) eqn:Ex; [|reflexivity].
    apply existsb_exists in Ex. destruct Ex as (b & Hb & Eb).
    apply String.eqb_eq in Eb. subst b. contradiction.
  - exact IH.
Qed.

Lemma classList_removeHtmlClass (value : ThemeName) (p : Page) :
  classList (removeHtmlClass value p)
  = filter (fun c => negb (existsb (String.eqb c)
              (filter (fun n => negb (n =? value)%string) (map name themeList))))
           (classList p).
Proof. reflexivity. Qed.

(** The registered names are tokens [classList] accepts. *)
Lemma registered_valid (value : ThemeName) :
  registered value = true -> validToken value = true.
Proof.
  intro H. apply registered_cases in H.
  destruct H as [-> | [-> | ->]]; reflexivity.
Qed.

Lemma theme_names_are_tokens :
  forallb validToken (map name themeList) = true.
Proof. reflexivity. Qed.

(** The effect with a name [classList.add] accepts runs to its end. *)
Lemma themeEffectOutcome_valid (p : Page) :
  validToken (activeThemeName p) = true ->
  exists q,
    themeEffectOutcome p = Returned q
    /\ classList q
       = (if existsb (String.eqb (activeThemeName p))
               (classList (removeHtmlClass (activeThemeName p) p))
          then classList (removeHtmlClass (activeThemeName p) p)
          else classList (removeHtmlClass (activeThemeName p) p)
               ++ [activeThemeName p])
    /\ classOps q
       = (classOps p
          ++ [ClassRemove (filter (fun n => negb (n =? activeThemeName p)%string)
                                  ["normal"; "dark"; "dark-blue"])])
         ++ [ClassAdd (activeThemeName p)]
    /\ storedThemeName q = Some (activeThemeName p)
    /\ activeThemeName q = activeThemeName p
    /\ hasStartViewTransition q = hasStartViewTransition p.
Proof.
  intro Hvalid. unfold themeEffectOutcome, addHtmlClass, classList_add.
  cbv zeta. unfold validToken in Hvalid.
  change (activeThemeName (removeHtmlClass (activeThemeName p) p))
    with (activeThemeName p).
  destruct (tokenError (activeThemeName p)); [discriminate|].
  eexists. split; [reflexivity|]. repeat split.
Qed.

(** With a name [classList.add] rejects the effect throws after the other
    theme classes are removed. *)
Lemma themeEffectOutcome_invalid (p : Page) :
  validToken (activeThemeName p) = false ->
  exists e,
    themeEffectOutcome p = Threw e (removeHtmlClass (activeThemeName p) p).
Proof.
  intro Hinvalid. unfold themeEffectOutcome, addHtmlClass, classList_add.
  cbv zeta. unfold validToken in Hinvalid.
  destruct (tokenError (activeThemeName p)) as [e|]; [|discriminate].
  now exists e.
Qed.

Lemma themeEffect_invalid (p : Page) :
  validToken (activeThemeName p) = false ->
  themeEffect p = removeHtmlClass (activeThemeName p) p.
Proof.
  intro H. destruct (themeEffectOutcome_invalid p H) as (e & He).
  unfold themeEffect. now rewrite He.
Qed.

Lemma classList_themeEffect (p : Page) :
  validToken (activeThemeName p) = true ->
  classList (themeEffect p)
  = if existsb (String.eqb (activeThemeName p))
         (classList (removeHtmlClass (activeThemeName p) p))
    then classList (removeHtmlClass (activeThemeName p) p)
    else classList (removeHtmlClass (activeThemeName p) p) ++ [activeThemeName p].
Proof.
  intro H. destruct (themeEffectOutcome_valid p H) as (q & Hq & Hcl & _).
  unfold themeEffect. now rewrite Hq.
Qed.

Lemma classOps_themeEffect (p : Page) :
  validToken (activeThemeName p) = true ->
  classOps (themeEffect p)
  = (classOps p
     ++ [ClassRemove (filter (fun n => negb (n =? activeThemeName p)%string)
                             ["normal"; "dark"; "dark-blue"])])
    ++ [ClassAdd (activeThemeName p)].
Proof.
  intro H. destruct (themeEffectOutcome_valid p H) as (q & Hq & _ & Hops & _).
  unfold themeEffect. now rewrite Hq.
Qed.

Lemma storedThemeName_themeEffect (p : Page) :
  validToken (activeThemeName p) = true ->
  storedThemeName (themeEffect p) = Some (activeThemeName p).
Proof.
  intro H. destruct (themeEffectOutcome_valid p H) as (q & Hq & _ & _ & Hs & _).
  unfold themeEffect. now rewrite Hq.
Qed.

Lemma activeThemeName_themeEffect (p : Page) :
  activeThemeName (themeEffect p) = activeThemeName p
  /\ hasStartViewTransition (themeEffect p) = hasStartViewTransition p.
Proof.
  destruct (validToken (activeThemeName p)) eqn:H.
  - destruct (themeEffectOutcome_valid p H) as (q & Hq & _ & _ & _ & Ha & Hv).
    unfold themeEffect. rewrite Hq. now split.
  - rewrite (themeEffect_invalid p H). now split.
Qed.

Lemma registered_after_remove (value : ThemeName) (p : Page) :
  registered value = true ->
  filter registered (classList (removeHtmlClass value p))
  = filter (fun c => (c =? value)%string) (classList p).
Proof.
  intro Hv. rewrite classList_removeHtmlClass, filter_twice.
  apply filter_ext. intro c. now apply spared_registered.
Qed.

Lemma existsb_filter_others (value : string) (tokens l : list string) :
  ~ In value tokens ->
  existsb (String.eqb value)
    (filter (fun c => negb (existsb (String.eqb c) tokens)) l)
  = existsb (String.eqb value) l.
Proof.
  intro Hnot. induction l as [|a l IH]; [reflexivity|].
  cbn [filter existsb].
  destruct (value =? a)%string eqn:E.
  - apply String.eqb_eq in E. subst a.
    replace (existsb (String.eqb value) tokens) with false.
    + cbn [negb existsb]. now rewrite String.eqb_refl.
    + symmetry. apply Bool.not_true_iff_false. intro Hex.
      apply existsb_exists in Hex. destruct Hex as (n & Hn & En).
      apply String.eqb_eq in En. now subst n.
  - destruct (negb _); cbn [existsb]; [rewrite E|]; exact IH.
Qed.

Lemma value_kept_by_remove (value : ThemeName) (p : Page) :
  existsb (String.eqb value) (classList (removeHtmlClass value p))
  = existsb (String.eqb value) (classList p).
Proof.
  rewrite classList_removeHtmlClass. apply existsb_filter_others.
  intro Hin. apply filter_In in Hin. destruct Hin as [_ Hin].
  now rewrite String.eqb_refl in Hin.
Qed.

(** C7, as stated, fails on the code: after ["bogus-theme"] has been applied
    to the sample page and the effect has run, no registered theme class is
    on the root element. *)
Lemma unregistered_theme_leaves_no_theme_class :
  ~ (exists c,
       filter registered
         (classList
            (themeEffect (setTheme Sample.click "bogus-theme" Sample.plainPage)))
       = [c]).
Proof.
  intros (c & H).
  assert (E : filter registered
                (classList
                   (themeEffect
                      (setTheme Sample.click "bogus-theme" Sample.plainPage)))
              = []) by reflexivity.
  rewrite E in H. discriminate H.
Qed.

(** C7, amended. When the active theme is a registered one, the effect of [initTheme]
    first removes the other registered theme classes from the root element
    and then adds the class of the active theme, in that order; between the
    two no registered class other than that of the active theme is on the
    root, and afterwards exactly one registered theme class is: that of the
    active theme. The class list of the root is a set of tokens. *)
Theorem themeEffect_one_theme_class (p : Page)
  (Hreg : registered (activeThemeName p) = true)
  (Hset : NoDup (classList p)) :
  let value := activeThemeName p in
  let p' := themeEffect p in
  classOps p'
  = classOps p
    ++ [ClassRemove (filter (fun n => negb (n =? value)%string)
                            ["normal"; "dark"; "dark-blue"]);
        ClassAdd value]
  /\ (forall c, In c (classList (removeHtmlClass value p)) ->
                registered c = true -> c = value)
  /\ filter registered (classList p') = [value]
  /\ storedThemeName p' = Some value.
Proof.
  intros value p'. subst p' value.
  split; [|split; [|split]].
  - rewrite (classOps_themeEffect p (registered_valid _ Hreg)), <- app_assoc.
    reflexivity.
  - intros c Hc Hrc.
    assert (Hin : In c (filter registered
                          (classList (removeHtmlClass (activeThemeName p) p))))
      by (apply filter_In; now split).
    rewrite (registered_after_remove _ p Hreg) in Hin.
    apply filter_In in Hin. now apply String.eqb_eq.
  - rewrite (classList_themeEffect p (registered_valid _ Hreg)).
    pose proof (registered_after_remove _ p Hreg) as Hrem.
    rewrite (filter_one _ _ Hset) in Hrem.
    rewrite value_kept_by_remove.
    destruct (existsb (String.eqb (activeThemeName p)) (classList p)).
    + exact Hrem.
    + rewrite filter_app.
      transitivity ([] ++ filter registered [activeThemeName p]).
      * f_equal. exact Hrem.
      * cbn [filter app]. now rewrite Hreg.
  - exact (storedThemeName_themeEffect p (registered_valid _ Hreg)).
Qed.

(** From the default theme to ["dark"]: the class [normal] goes, then the
    class [dark] comes. *)
Lemma themeEffect_one_theme_class_witness :
  let p := assignActiveThemeName "dark" Sample.plainPage in
  registered (activeThemeName p) = true
  /\ NoDup (classList p)
  /\ filter registered (classList (themeEffect p)) = ["dark"]
  /\ classOps (themeEffect p)
     = [ClassRemove ["normal"; "dark-blue"]; ClassAdd "dark"].
Proof.
  intro p.
  assert (Hreg : registered (activeThemeName p) = true) by reflexivity.
  assert (Hset : NoDup (classList p)).
  { repeat constructor; simpl; tauto. }
  destruct (themeEffect_one_theme_class p Hreg Hset) as (Hops & _ & Hone & _).
  repeat split; assumption.
Defined.

(* ================================================================== *)
(** * Further properties of the tags view *)
(* ================================================================== *)

(** ** The pinned tags collected from the route configuration *)

Lemma filterAffixTagsOf_shape (resolve : string -> string -> string) :
  forall (r : RouteRecordRaw) (basePath : string) (tag : TagView),
    In tag (filterAffixTagsOf resolve basePath r) ->
    truthy (isAffix tag) = true
    /\ fullPath tag = path tag
    /\ path tag <> None
    /\ query tag = None.
Proof.
  fix IH 1. intros [rpath rname rmeta rchildren] basePath tag.
  cbn [filterAffixTagsOf]. rewrite in_app_iff. intros [H|H].
  - destruct (truthy (isAffixMeta rmeta)) eqn:E; [|contradiction].
    destruct H as [<-|[]]. repeat split; [exact E | discriminate].
  - revert H. induction rchildren as [|child rest IHrest]; [contradiction|].
    rewrite in_app_iff. intros [H|H].
    + exact (IH child rpath tag H).
    + exact (IHrest H).
Qed.

(** X1. Every tag [filterAffixTags] collects, at whatever depth of the route
    tree, is pinned, has a path, has its full path equal to its path, and
    carries no query. *)
Theorem affix_tags_shape (resolve : string -> string -> string)
  (routes : list RouteRecordRaw) (basePath : string) :
  Forall (fun tag => truthy (isAffix tag) = true
                     /\ fullPath tag = path tag
                     /\ path tag <> None
                     /\ query tag = None)
         (filterAffixTags resolve routes basePath).
Proof.
  apply Forall_forall. intros tag H. unfold filterAffixTags in H.
  apply in_flat_map in H. destruct H as (r & _ & H).
  exact (filterAffixTagsOf_shape resolve r basePath tag H).
Qed.

(** X2. The base path given to [filterAffixTags] reaches the routes of the
    first level only: the tags of nested routes are resolved against the
    path of their parent, so when no route of the first level is pinned the
    result is the same for every base path. *)
Theorem affix_tags_basePath_first_level (resolve : string -> string -> string)
  (routes : list RouteRecordRaw) (base1 base2 : string)
  (Hplain : Forall (fun r => truthy (isAffixMeta (Sample2.metaOf r)) = false)
                   routes) :
  filterAffixTags resolve routes base1 = filterAffixTags resolve routes base2.
Proof.
  unfold filterAffixTags.
  induction Hplain as [|r rest Hr _ IH]; [reflexivity|].
  cbn [flat_map]. rewrite IH. f_equal.
  destruct r as [rpath rname rmeta rchildren]. cbn [Sample2.metaOf] in Hr.
  cbn [filterAffixTagsOf]. rewrite Hr. reflexivity.
Qed.

(** The pinned pages below [/kb] get the same tags under base ['/'] and
    under base ['/admin']. *)
Lemma affix_tags_basePath_first_level_witness :
  Forall (fun r => truthy (isAffixMeta (Sample2.metaOf r)) = false)
         Sample2.kbRoutes
  /\ filterAffixTags Sample2.joinPaths Sample2.kbRoutes "/"
     = filterAffixTags Sample2.joinPaths Sample2.kbRoutes "/admin"
  /\ map path (filterAffixTags Sample2.joinPaths Sample2.kbRoutes "/")
     = [Some "/kb/home"; Some "docs/intro"].
Proof.
  assert (H : Forall (fun r => truthy (isAffixMeta (Sample2.metaOf r)) = false)
                     Sample2.kbRoutes).
  { repeat constructor. }
  split; [exact H|]. split; [|reflexivity].
  exact (affix_tags_basePath_first_level Sample2.joinPaths Sample2.kbRoutes
           "/" "/admin" H).
Defined.

(** ** Registration, for every store *)

Section Registration.

Context (anyStore : TagsViewStore).

Variable resolve : string -> string -> string.

(** One step of the loop of [initTags]. *)
Lemma initTags_loop_frame (tags : list TagView) :
  forall c0,
    let c1 := fold_left
                (fun c tag => if truthyString (TagsView.name tag)
                              then withStore (addVisitedView tag) c
                              else c)
                tags c0 in
    routerCalls c1 = routerCalls c0
    /\ route c1 = route c0
    /\ affixTags c1 = affixTags c0
    /\ selectedTag c1 = selectedTag c0.
Proof.
  induction tags as [|tag tags IH]; intro c0; cbn [fold_left].
  - repeat split.
  - destruct (truthyString (TagsView.name tag)); [|apply IH].
    destruct (IH (withStore (addVisitedView tag) c0)) as (H1 & H2 & H3 & H4).
    repeat split; assumption.
Qed.

Lemma initTags_loop_unnamed (tags : list TagView) :
  Forall (fun tag => truthyString (TagsView.name tag) = false) tags ->
  forall c0,
    fold_left
      (fun c tag => if truthyString (TagsView.name tag)
                    then withStore (addVisitedView tag) c
                    else c)
      tags c0 = c0.
Proof.
  induction 1 as [|tag tags Htag _ IH]; intro c0; cbn [fold_left].
  - reflexivity.
  - rewrite Htag. apply IH.
Qed.

(** X3. Registration never navigates and never changes the selected tag,
    whatever the store does: [initTags] and [addTags] call neither
    [router.push] nor [router.replace]; [initTags] sets the pinned tags of
    the component to the tags collected from the routes under base ['/'],
    [addTags] leaves them alone. *)
Theorem registration_never_navigates (routes : list RouteRecordRaw)
  (r : RouteLocationNormalized) (c : Component) :
  routerCalls (initTags resolve routes c) = routerCalls c
  /\ selectedTag (initTags resolve routes c) = selectedTag c
  /\ route (initTags resolve routes c) = route c
  /\ affixTags (initTags resolve routes c) = filterAffixTags resolve routes "/"
  /\ routerCalls (addTags r c) = routerCalls c
  /\ selectedTag (addTags r c) = selectedTag c
  /\ route (addTags r c) = route c
  /\ affixTags (addTags r c) = affixTags c.
Proof.
  unfold initTags.
  destruct (initTags_loop_frame (filterAffixTags resolve routes "/")
              (setAffixTags (filterAffixTags resolve routes "/") c))
    as (H1 & H2 & H3 & H4).
  repeat split; try assumption;
    unfold addTags; destruct (truthyString (r_name r)); reflexivity.
Qed.

(** X4. A route without a name, the name being undefined or the empty
    string, is never handed to the store: [initTags] leaves the store as it
    was when none of the pinned tags has a name, and [addTags] on such a
    route leaves the whole component as it was. *)
Theorem unnamed_routes_not_registered (routes : list RouteRecordRaw)
  (r : RouteLocationNormalized) (c : Component)
  (Htags : Forall (fun tag => truthyString (TagsView.name tag) = false)
                  (filterAffixTags resolve routes "/"))
  (Hr : truthyString (r_name r) = false) :
  store (initTags resolve routes c) = store c
  /\ addTags r c = c.
Proof.
  split.
  - unfold initTags. rewrite (initTags_loop_unnamed _ Htags). reflexivity.
  - unfold addTags. now rewrite Hr.
Qed.

End Registration.

(** The pinned route [/notice] has no name, and neither has the route with
    the empty name: the store stays empty. *)
Lemma unnamed_routes_not_registered_witness :
  let emptyName := mkRoute "/notice" "/notice" (Some "") []
                           (mkMeta None (Some true)) in
  Forall (fun tag => truthyString (TagsView.name tag) = false)
         (filterAffixTags Sample.resolveAbsolute Sample.noticeRoutes "/")
  /\ truthyString (r_name emptyName) = false
  /\ store (initTags Sample.resolveAbsolute Sample.noticeRoutes Sample.fresh)
     = store Sample.fresh
  /\ addTags emptyName Sample.fresh = Sample.fresh.
Proof.
  intro emptyName.
  assert (Htags : Forall (fun tag => truthyString (TagsView.name tag) = false)
            (filterAffixTags Sample.resolveAbsolute Sample.noticeRoutes "/")).
  { repeat constructor. }
  assert (Hr : truthyString (r_name emptyName) = false) by reflexivity.
  split; [exact Htags|]. split; [exact Hr|].
  exact (unnamed_routes_not_registered specStore Sample.resolveAbsolute
           Sample.noticeRoutes emptyName Sample.fresh Htags Hr).
Defined.

(** ** The active tag and the last view *)

(** X5. In a registry whose views have pairwise different paths at most one
    tag of the strip is shown as active. *)
Theorem at_most_one_active_tag (c : Component) (a b : TagView)
  (Hu : uniquePaths (store c))
  (Ha : In a (visitedViews (store c)))
  (Hb : In b (visitedViews (store c)))
  (Hactive_a : isActive c a = true)
  (Hactive_b : isActive c b = true) :
  a = b.
Proof.
  apply (uniquePaths_same (store c)); try assumption.
  apply strictEq_true in Hactive_a, Hactive_b. congruence.
Qed.

(** On [/kb/list] the tab of [/kb/list] is the active one. *)
Lemma at_most_one_active_tag_witness :
  uniquePaths (store Sample.onList)
  /\ isActive Sample.onList Sample.kbList = true
  /\ Sample.kbList = Sample.kbList.
Proof.
  assert (Hu : uniquePaths (store Sample.onList)).
  { unfold uniquePaths. simpl.
    repeat constructor; simpl; intuition discriminate. }
  assert (Hin : In Sample.kbList (visitedViews (store Sample.onList)))
    by (right; left; reflexivity).
  split; [exact Hu|]. split; [reflexivity|].
  exact (at_most_one_active_tag Sample.onList Sample.kbList Sample.kbList
           Hu Hin Hin eq_refl eq_refl).
Defined.

(** X6. [toLastView] looks at the last visited view only. With a full path
    on it, that full path is pushed whatever views come before; without one
    the outcome is that of an empty list (the home rule), although views
    remain. *)
Theorem toLastView_last_only (views : list TagView) (latest view : TagView)
  (c : Component) :
  toLastView (views ++ [latest]) view c = toLastView [latest] view c
  /\ (forall fp, fullPath latest = Some fp ->
        toLastView (views ++ [latest]) view c = router_push (ToString fp) c)
  /\ (fullPath latest = None ->
        toLastView (views ++ [latest]) view c = toLastView [] view c).
Proof.
  assert (E : forall vs, toLastView (vs ++ [latest]) view c
              = match fullPath latest with
                | Some fp => router_push (ToString fp) c
                | None => toLastView [] view c
                end).
  { intro vs. unfold toLastView. rewrite lastElement_snoc.
    destruct (fullPath latest); reflexivity. }
  split; [|split].
  - rewrite (E views). exact (eq_sym (E [])).
  - intros fp Hfp. now rewrite E, Hfp.
  - intro Hnone. now rewrite E, Hnone.
Qed.

(** ** What the handlers of the context menu leave alone *)

Section Frames.

Context (anyStore : TagsViewStore).

(** X7. Whatever the store does, refresh, close, close-others and close-all
    change neither the current route of the component, nor its list of
    pinned tags, nor the selected tag: the tag the menu was opened on stays
    selected after the action. *)
Theorem menu_actions_keep_selection (view : TagView) (c : Component) :
  (route (refreshSelectedTag view c) = route c
   /\ affixTags (refreshSelectedTag view c) = affixTags c
   /\ selectedTag (refreshSelectedTag view c) = selectedTag c)
  /\ (route (closeSelectedTag view c) = route c
      /\ affixTags (closeSelectedTag view c) = affixTags c
      /\ selectedTag (closeSelectedTag view c) = selectedTag c)
  /\ (route (closeOthersTags c) = route c
      /\ affixTags (closeOthersTags c) = affixTags c
      /\ selectedTag (closeOthersTags c) = selectedTag c)
  /\ (route (closeAllTags view c) = route c
      /\ affixTags (closeAllTags view c) = affixTags c
      /\ selectedTag (closeAllTags view c) = selectedTag c).
Proof.
  split; [|split; [|split]].
  - repeat split.
  - unfold closeSelectedTag. destruct (isActive _ view).
    + rewrite toLastView_push. repeat split.
    + repeat split.
  - unfold closeOthersTags.
    destruct (fullPath (selectedTag c)) as [fp|]; [|repeat split].
    destruct (negb (fp =? r_path (route c))%string); repeat split.
  - unfold closeAllTags.
    match goal with |- context [if ?b then _ else _] => destruct b end.
    + repeat split.
    + rewrite toLastView_push. repeat split.
Qed.

End Frames.

(** ** The panel of the context menu *)

Section Panel.

Open Scope R_scope.

(** X8. [openMenu] shows the panel at the height of the pointer and selects
    the tag. Its left edge is the smaller of [clientX + 10] and
    [offsetWidth - 100]: the panel starts at most 10 to the right of the
    pointer and a panel of the minimal width of 100 never reaches beyond the
    right edge of the body. [closeMenu] hides the panel and keeps its place
    and the selected tag. *)
Theorem openMenu_stays_in_body (tag : TagView) (e : ContextMenu.MouseEvent)
  (offsetWidth : R) (m : ContextMenu.Menu) :
  let m' := ContextMenu.openMenu tag e offsetWidth m in
  ContextMenu.left m'
  = Rmin (ContextMenu.clientX e + 10) (offsetWidth - 100)
  /\ ContextMenu.left m' + 100 <= offsetWidth
  /\ ContextMenu.left m' <= ContextMenu.clientX e + 10
  /\ ContextMenu.top m' = ContextMenu.clientY e
  /\ ContextMenu.visible m' = true
  /\ ContextMenu.selectedTag m' = tag
  /\ ContextMenu.closeMenu m'
     = ContextMenu.mkMenu false (ContextMenu.top m') (ContextMenu.left m') tag.
Proof.
  intro m'. subst m'. unfold ContextMenu.openMenu. cbn.
  destruct (Rgt_dec (ContextMenu.clientX e + 10) (offsetWidth - 100)) as [H|H].
  - repeat split; try lra. rewrite Rmin_right; lra.
  - repeat split; try lra. rewrite Rmin_left; lra.
Qed.

End Panel.

(* ================================================================== *)
(** * Further properties of the theme engine *)
(* ================================================================== *)

(** ** The reveal circle *)

Section Reveal.

Open Scope R_scope.

Lemma within_farthest_axis (x w px : R) :
  0 <= px <= w ->
  (x - px) * (x - px) <= Rmax x (w - x) * Rmax x (w - x).
Proof.
  intro H. unfold Rmax. destruct (Rle_dec x (w - x)); nra.
Qed.

(** X9. The circle of radius [maxRadius] around the click covers the
    viewport: every point [(px, py)] with [0 <= px <= w] and [0 <= py <= h]
    lies within that radius of the click [(x, y)], wherever the click is. *)
Theorem reveal_circle_covers_viewport (x y w h px py : R)
  (Hpx : 0 <= px <= w) (Hpy : 0 <= py <= h) :
  distance x y px py <= maxRadius x y w h.
Proof.
  unfold distance, maxRadius, hypot. apply sqrt_le_1_alt.
  pose proof (within_farthest_axis x w px Hpx).
  pose proof (within_farthest_axis y h py Hpy).
  lra.
Qed.

(** The point [(9, 1)] of a viewport of 10 by 8 and a click at [(3, 4)]. *)
Lemma reveal_circle_covers_viewport_witness :
  (0 <= 9 <= 10) /\ (0 <= 1 <= 8)
  /\ distance 3 4 9 1 <= maxRadius 3 4 10 8.
Proof.
  assert (Hpx : 0 <= 9 <= 10) by lra.
  assert (Hpy : 0 <= 1 <= 8) by lra.
  split; [exact Hpx|]. split; [exact Hpy|].
  exact (reveal_circle_covers_viewport 3 4 10 8 9 1 Hpx Hpy).
Defined.

End Reveal.

(** ** The effect on the class list *)

(** The classes [removeHtmlClass value] lets pass. *)
Lemma spared_by_remove (value c : string) :
  c = value \/ registered c = false ->
  negb (existsb (String.eqb c)
          (filter (fun n => negb (n =? value)%string) (map name themeList)))
  = true.
Proof.
  intro H. apply Bool.negb_true_iff, Bool.not_true_iff_false. intro Hex.
  apply existsb_exists in Hex. destruct Hex as (n & Hn & En).
  apply String.eqb_eq in En. subst n. apply filter_In in Hn.
  destruct Hn as [Hin Hne]. destruct H as [-> | Hreg].
  - now rewrite String.eqb_refl in Hne.
  - apply Bool.not_true_iff_false in Hreg. apply Hreg.
    unfold registered. apply existsb_exists. exists c.
    split; [exact Hin | apply String.eqb_refl].
Qed.

Lemma filter_all {A : Type} (f : A -> bool) (l : list A) :
  Forall (fun a => f a = true) l -> filter f l = l.
Proof.
  induction 1 as [|a l Ha _ IH]; [reflexivity|].
  simpl. now rewrite Ha, IH.
Qed.

Lemma active_on_root (p : Page) :
  validToken (activeThemeName p) = true ->
  existsb (String.eqb (activeThemeName p)) (classList (themeEffect p)) = true.
Proof.
  intro Hvalid. rewrite (classList_themeEffect p Hvalid).
  destruct (existsb _ (classList (removeHtmlClass _ p))) eqn:E; [exact E|].
  rewrite existsb_app. cbn [existsb]. rewrite String.eqb_refl.
  now rewrite Bool.orb_true_r.
Qed.

Lemma spared_themeEffect (p : Page) :
  Forall (fun c =>
            negb (existsb (String.eqb c)
                    (filter (fun n => negb (n =? activeThemeName p)%string)
                            (map name themeList))) = true)
         (classList (themeEffect p)).
Proof.
  assert (H : Forall (fun c =>
            negb (existsb (String.eqb c)
                    (filter (fun n => negb (n =? activeThemeName p)%string)
                            (map name themeList))) = true)
            (classList (removeHtmlClass (activeThemeName p) p))).
  { rewrite classList_removeHtmlClass. apply Forall_forall.
    intros c Hc. now apply filter_In in Hc. }
  destruct (validToken (activeThemeName p)) eqn:Hvalid.
  - rewrite (classList_themeEffect p Hvalid).
    destruct (existsb _ _); [exact H|].
    apply Forall_app. split; [exact H|].
    constructor; [|constructor]. apply spared_by_remove. now left.
  - now rewrite (themeEffect_invalid p Hvalid).
Qed.

(** X10. Running the effect a second time changes neither the classes of
    the root element nor the persisted theme name: the effect is idempotent
    on both, for every active theme name. *)
Theorem themeEffect_idempotent (p : Page) :
  classList (themeEffect (themeEffect p)) = classList (themeEffect p)
  /\ storedThemeName (themeEffect (themeEffect p))
     = storedThemeName (themeEffect p)
  /\ activeThemeName (themeEffect p) = activeThemeName p.
Proof.
  destruct (activeThemeName_themeEffect p) as [Hactive _].
  assert (E : classList (removeHtmlClass (activeThemeName p) (themeEffect p))
              = classList (themeEffect p)).
  { rewrite classList_removeHtmlClass. apply filter_all.
    apply spared_themeEffect. }
  split; [|split; [|exact Hactive]].
  - destruct (validToken (activeThemeName p)) eqn:Hvalid.
    + assert (Hvalid' : validToken (activeThemeName (themeEffect p)) = true)
        by now rewrite Hactive.
      rewrite (classList_themeEffect (themeEffect p) Hvalid').
      rewrite Hactive, E, (active_on_root p Hvalid). reflexivity.
    + assert (Hinvalid' : validToken (activeThemeName (themeEffect p)) = false)
        by now rewrite Hactive.
      rewrite (themeEffect_invalid (themeEffect p) Hinvalid').
      rewrite Hactive. exact E.
  - destruct (validToken (activeThemeName p)) eqn:Hvalid.
    + assert (Hvalid' : validToken (activeThemeName (themeEffect p)) = true)
        by now rewrite Hactive.
      rewrite (storedThemeName_themeEffect _ Hvalid'), Hactive.
      now rewrite (storedThemeName_themeEffect p Hvalid).
    + assert (Hinvalid' : validToken (activeThemeName (themeEffect p)) = false)
        by now rewrite Hactive.
      rewrite (themeEffect_invalid (themeEffect p) Hinvalid').
      reflexivity.
Qed.

Lemma foreign_classes_after_remove (value : ThemeName) (p : Page) :
  filter (fun c => negb (registered c)) (classList (removeHtmlClass value p))
  = filter (fun c => negb (registered c)) (classList p).
Proof.
  rewrite classList_removeHtmlClass, filter_twice.
  apply filter_ext. intro c.
  destruct (registered c) eqn:Hc; [reflexivity|].
  cbn [negb andb]. apply spared_by_remove. now right.
Qed.

(** X11. When the active theme is a registered one, the effect leaves the
    classes of the root element that are not theme classes exactly as they
    were, in the same order: it removes and adds theme classes only. *)
Theorem themeEffect_keeps_foreign_classes (p : Page)
  (Hreg : registered (activeThemeName p) = true) :
  filter (fun c => negb (registered c)) (classList (themeEffect p))
  = filter (fun c => negb (registered c)) (classList p).
Proof.
  rewrite (classList_themeEffect p (registered_valid _ Hreg)).
  destruct (existsb _ _).
  - apply foreign_classes_after_remove.
  - rewrite filter_app, foreign_classes_after_remove.
    cbn [filter]. rewrite Hreg. cbn [negb]. apply app_nil_r.
Qed.

(** The class [app] stays when the theme goes from [normal] to [dark]. *)
Lemma themeEffect_keeps_foreign_classes_witness :
  registered (activeThemeName Sample2.pageWithAppClass) = true
  /\ filter (fun c => negb (registered c))
            (classList (themeEffect Sample2.pageWithAppClass))
     = ["app"]
  /\ classList (themeEffect Sample2.pageWithAppClass) = ["app"; "dark"].
Proof.
  assert (Hreg : registered (activeThemeName Sample2.pageWithAppClass) = true)
    by reflexivity.
  split; [exact Hreg|]. split; [|reflexivity].
  exact (themeEffect_keeps_foreign_classes Sample2.pageWithAppClass Hreg).
Defined.

Lemma themeEffect_NoDup (p : Page) :
  NoDup (classList p) -> NoDup (classList (themeEffect p)).
Proof.
  intro Hset.
  assert (H : NoDup (classList (removeHtmlClass (activeThemeName p) p))).
  { rewrite classList_removeHtmlClass. now apply NoDup_filter. }
  destruct (validToken (activeThemeName p)) eqn:Hvalid;
    [|now rewrite (themeEffect_invalid p Hvalid)].
  rewrite (classList_themeEffect p Hvalid).
  destruct (existsb _ _) eqn:E; [exact H|].
  apply NoDup_app; [exact H | repeat constructor; simpl; tauto |].
  intros c Hc [Ec|[]]. subst c.
  apply Bool.not_true_iff_false in E. apply E.
  apply existsb_exists. exists (activeThemeName p).
  split; [exact Hc | apply String.eqb_refl].
Qed.

Lemma active_class_on_root (p : Page) :
  validToken (activeThemeName p) = true ->
  In (activeThemeName p) (classList (themeEffect p)).
Proof.
  intro Hvalid. pose proof (active_on_root p Hvalid) as H.
  apply existsb_exists in H.
  destruct H as (c & Hc & E). apply String.eqb_eq in E. now subst c.
Qed.

(** X12. The effect keeps the class list of the root element free of
    repetitions, whatever the active theme name. When that name is a token
    [classList.add] accepts (not empty, no white space), registered or not,
    it is a class of the root afterwards; when it is not, [addHtmlClass]
    throws, the effect ends after the removal, and the class list is the one
    [removeHtmlClass] left. *)
Theorem themeEffect_keeps_token_set (p : Page)
  (Hset : NoDup (classList p)) :
  NoDup (classList (themeEffect p))
  /\ (validToken (activeThemeName p) = true ->
      In (activeThemeName p) (classList (themeEffect p)))
  /\ (validToken (activeThemeName p) = false ->
      exists e,
        themeEffectOutcome p = Threw e (removeHtmlClass (activeThemeName p) p)).
Proof.
  split; [now apply themeEffect_NoDup|]. split.
  - apply active_class_on_root.
  - apply themeEffectOutcome_invalid.
Qed.

(** Twice the class of the theme is not the result of adding it again; the
    name ["my theme"] makes the effect throw once [dark] is removed. *)
Lemma themeEffect_keeps_token_set_witness :
  NoDup (classList Sample.plainPage)
  /\ NoDup (classList (themeEffect Sample.plainPage))
  /\ classList (themeEffect Sample.plainPage) = ["normal"]
  /\ themeEffectOutcome Sample2.pageWithSpacedTheme
     = Threw InvalidCharacterError
             (removeHtmlClass "my theme" Sample2.pageWithSpacedTheme)
  /\ classList (themeEffect Sample2.pageWithSpacedTheme) = ["app"].
Proof.
  assert (Hset : NoDup (classList Sample.plainPage)).
  { repeat constructor; simpl; tauto. }
  split; [exact Hset|].
  split; [exact (proj1 (themeEffect_keeps_token_set Sample.plainPage Hset))|].
  repeat split.
Defined.

(** ** [setTheme] and the effect together *)

(** The page once [setTheme] has set its CSS variables: everything but the
    variables is as before. *)
Lemma setTheme_styled (ev : MouseEvent) (value : ThemeName) (p : Page) :
  exists q,
    setTheme ev value p
    = (if hasStartViewTransition q
       then document_startViewTransition (AssignActiveThemeName value) q
       else call (AssignActiveThemeName value) q)
    /\ classList q = classList p
    /\ classOps q = classOps p
    /\ storedThemeName q = storedThemeName p
    /\ innerWidth q = innerWidth p
    /\ innerHeight q = innerHeight p
    /\ hasStartViewTransition q = hasStartViewTransition p.
Proof.
  unfold setTheme.
  destruct (value =? "dark")%string; [|destruct (value =? "dark-blue")%string];
    eexists; (split; [reflexivity|]); repeat split.
Qed.

Lemma setTheme_frame (ev : MouseEvent) (value : ThemeName) (p : Page) :
  classList (setTheme ev value p) = classList p
  /\ classOps (setTheme ev value p) = classOps p
  /\ storedThemeName (setTheme ev value p) = storedThemeName p
  /\ innerWidth (setTheme ev value p) = innerWidth p
  /\ innerHeight (setTheme ev value p) = innerHeight p
  /\ hasStartViewTransition (setTheme ev value p) = hasStartViewTransition p.
Proof.
  destruct (setTheme_styled ev value p)
    as (q & -> & H1 & H2 & H3 & H4 & H5 & H6).
  destruct (hasStartViewTransition q) eqn:E;
    cbn [document_startViewTransition call assignActiveThemeName
         classList classOps storedThemeName innerWidth innerHeight
         hasStartViewTransition];
    repeat split; congruence.
Qed.

(** X13. [setTheme] itself touches neither the classes of the root element
    nor the persisted theme name, nor the viewport size it read: in every
    browser and for every theme name these are after the call what they
    were before. The persisted name changes only when the effect runs: with
    an active name [classList.add] accepts the effect stores that name and
    leaves at least one class on the root; with one it rejects the effect
    throws before [setActiveThemeName] and the persisted name stays. *)
Theorem setTheme_leaves_root_and_storage (ev : MouseEvent) (value : ThemeName)
  (p : Page) :
  classList (setTheme ev value p) = classList p
  /\ classOps (setTheme ev value p) = classOps p
  /\ storedThemeName (setTheme ev value p) = storedThemeName p
  /\ innerWidth (setTheme ev value p) = innerWidth p
  /\ innerHeight (setTheme ev value p) = innerHeight p
  /\ (validToken (activeThemeName (setTheme ev value p)) = true ->
      classList (themeEffect (setTheme ev value p)) <> []
      /\ storedThemeName (themeEffect (setTheme ev value p))
         = Some (activeThemeName (setTheme ev value p)))
  /\ (validToken (activeThemeName (setTheme ev value p)) = false ->
      storedThemeName (themeEffect (setTheme ev value p)) = storedThemeName p).
Proof.
  destruct (setTheme_frame ev value p) as (H1 & H2 & H3 & H4 & H5 & _).
  repeat split; try assumption.
  - intro Hnil. pose proof (active_on_root (setTheme ev value p) H) as Hon.
    rewrite Hnil in Hon. discriminate Hon.
  - now apply storedThemeName_themeEffect.
  - intro Hinvalid. rewrite (themeEffect_invalid _ Hinvalid). exact H3.
Qed.

Lemma registered_classes_after_effect (p : Page) :
  registered (activeThemeName p) = true ->
  NoDup (classList p) ->
  filter registered (classList (themeEffect p)) = [activeThemeName p].
Proof.
  intros Hreg Hset. rewrite (classList_themeEffect p (registered_valid _ Hreg)).
  pose proof (registered_after_remove _ p Hreg) as Hrem.
  rewrite (filter_one _ _ Hset) in Hrem.
  rewrite value_kept_by_remove.
  destruct (existsb (String.eqb (activeThemeName p)) (classList p)).
  - exact Hrem.
  - rewrite filter_app.
    transitivity ([] ++ filter registered [activeThemeName p]).
    + f_equal. exact Hrem.
    + cbn [filter app]. now rewrite Hreg.
Qed.

Lemma themed_after_setTheme (ev : MouseEvent) (value : ThemeName) (p : Page) :
  hasStartViewTransition p = false ->
  registered value = true ->
  NoDup (classList p) ->
  filter registered (classList (themeEffect (setTheme ev value p))) = [value]
  /\ NoDup (classList (themeEffect (setTheme ev value p)))
  /\ hasStartViewTransition (themeEffect (setTheme ev value p)) = false.
Proof.
  intros Hplain Hreg Hset.
  destruct (setTheme_immediate ev value p Hplain) as [Hactive _].
  destruct (setTheme_frame ev value p) as (Hcl & _ & _ & _ & _ & Hvt).
  split; [|split].
  - rewrite registered_classes_after_effect; rewrite ?Hactive, ?Hcl; auto.
  - apply themeEffect_NoDup. now rewrite Hcl.
  - rewrite (proj2 (activeThemeName_themeEffect (setTheme ev value p))).
    now rewrite Hvt.
Qed.

(** X14. In a browser without view transitions, choosing a registered theme
    and then another one, the effect running after each choice, leaves on
    the root element the class of the first theme after the first choice
    and only the class of the second one after the second: no theme class
    of an earlier choice stays behind. *)
Theorem theme_switch_leaves_one_class (e1 e2 : MouseEvent) (v1 v2 : ThemeName)
  (p : Page)
  (Hplain : hasStartViewTransition p = false)
  (Hv1 : registered v1 = true)
  (Hv2 : registered v2 = true)
  (Hset : NoDup (classList p)) :
  let p1 := themeEffect (setTheme e1 v1 p) in
  let p2 := themeEffect (setTheme e2 v2 p1) in
  filter registered (classList p1) = [v1]
  /\ filter registered (classList p2) = [v2].
Proof.
  intros p1 p2. subst p1 p2.
  destruct (themed_after_setTheme e1 v1 p Hplain Hv1 Hset) as (H1 & Hset1 & Hp1).
  split; [exact H1|].
  exact (proj1 (themed_after_setTheme e2 v2 _ Hp1 Hv2 Hset1)).
Qed.

(** From [normal] to [dark] and on to [dark-blue]. *)
Lemma theme_switch_leaves_one_class_witness :
  hasStartViewTransition Sample.plainPage = false
  /\ registered "dark" = true /\ registered "dark-blue" = true
  /\ NoDup (classList Sample.plainPage)
  /\ filter registered
       (classList
          (themeEffect
             (setTheme Sample.click "dark-blue"
                (themeEffect (setTheme Sample.click "dark" Sample.plainPage)))))
     = ["dark-blue"].
Proof.
  assert (Hset : NoDup (classList Sample.plainPage)).
  { repeat constructor; simpl; tauto. }
  split; [reflexivity|]. split; [reflexivity|]. split; [reflexivity|].
  split; [exact Hset|].
  exact (proj2 (theme_switch_leaves_one_class Sample.click Sample.click
                  "dark" "dark-blue" Sample.plainPage
                  eq_refl eq_refl eq_refl Hset)).
Defined.

Lemma unregistered_spares_none (value c : string) :
  registered value = false ->
  registered c
  && negb (existsb (String.eqb c)
             (filter (fun n => negb (n =? value)%string) (map name themeList)))
  = false.
Proof.
  intro Hv. destruct (registered c) eqn:Hc; [|reflexivity].
  cbn [andb]. apply Bool.negb_false_iff.
  pose proof Hc as Hin. unfold registered in Hin. apply existsb_exists in Hin.
  destruct Hin as (n & Hn & En). apply String.eqb_eq in En. subst n.
  apply existsb_exists. exists c. split; [|apply String.eqb_refl].
  apply filter_In. split; [exact Hn|].
  apply Bool.negb_true_iff, String.eqb_neq. intro E. subst c. congruence.
Qed.

(** X15. When the active theme name is not a registered one (the persisted
    name is taken as it is), the effect removes every registered theme class
    from the root element: afterwards no registered theme class is on the
    root, the default one included. The unknown name becomes a class of the
    root when it is a token [classList.add] accepts; when it is empty or has
    white space the effect throws instead, the class list is the one the
    removal left and the persisted name is not written. *)
Theorem unknown_theme_clears_theme_classes (p : Page)
  (Hunknown : registered (activeThemeName p) = false) :
  filter registered (classList (themeEffect p)) = []
  /\ (validToken (activeThemeName p) = true ->
      In (activeThemeName p) (classList (themeEffect p)))
  /\ (validToken (activeThemeName p) = false ->
      classList (themeEffect p)
      = classList (removeHtmlClass (activeThemeName p) p)
      /\ storedThemeName (themeEffect p) = storedThemeName p).
Proof.
  assert (E : filter registered
                (classList (removeHtmlClass (activeThemeName p) p)) = []).
  { rewrite classList_removeHtmlClass, filter_twice.
    rewrite (filter_ext _ (fun _ => false)).
    - induction (classList p) as [|a l IH]; [reflexivity | exact IH].
    - intro c. now apply unregistered_spares_none. }
  split; [|split].
  - destruct (validToken (activeThemeName p)) eqn:Hvalid.
    + rewrite (classList_themeEffect p Hvalid).
      destruct (existsb _ _); [exact E|].
      rewrite filter_app.
      transitivity ([] ++ filter registered [activeThemeName p]).
      * f_equal. exact E.
      * cbn [filter app]. now rewrite Hunknown.
    + now rewrite (themeEffect_invalid p Hvalid).
  - apply active_class_on_root.
  - intro Hinvalid. rewrite (themeEffect_invalid p Hinvalid). now split.
Qed.

(** With ["bogus-theme"] persisted, the class [dark] goes and none of the
    registered classes comes; with ["my theme"] nothing comes at all. *)
Lemma unknown_theme_clears_theme_classes_witness :
  registered (activeThemeName Sample2.pageWithUnknownTheme) = false
  /\ filter registered (classList (themeEffect Sample2.pageWithUnknownTheme))
     = []
  /\ classList (themeEffect Sample2.pageWithUnknownTheme)
     = ["app"; "bogus-theme"]
  /\ classList (themeEffect Sample2.pageWithSpacedTheme) = ["app"]
  /\ storedThemeName (themeEffect Sample2.pageWithSpacedTheme) = Some "dark".
Proof.
  assert (H : registered (activeThemeName Sample2.pageWithUnknownTheme) = false)
    by reflexivity.
  split; [exact H|].
  split; [exact (proj1 (unknown_theme_clears_theme_classes _ H))|].
  repeat split.
Defined.

(** ** Several choices while the browser holds the callbacks *)

Lemma calls_keep_queue (hs : list Handler) :
  forall q,
    updateCallbacks (fold_left (fun p h => call h p) hs q) = updateCallbacks q.
Proof.
  induction hs as [|h hs IH]; intro q; cbn [fold_left]; [reflexivity|].
  rewrite IH. now destruct h.
Qed.

Lemma runUpdateCallbacks_empties (p : Page) :
  updateCallbacks (runUpdateCallbacks p) = [].
Proof.
  unfold runUpdateCallbacks. now rewrite calls_keep_queue.
Qed.

(** X16. In a browser with view transitions, two choices of a theme made
    one after the other, before the browser has called anything, leave the
    active theme untouched and both handlers with the browser, in the order
    of the choices; once the browser has called them the active theme is
    the one chosen last, and the browser holds no handler any more. *)
Theorem last_choice_wins (e1 e2 : MouseEvent) (v1 v2 : ThemeName) (p : Page)
  (Hanimated : hasStartViewTransition p = true) :
  let p2 := setTheme e2 v2 (setTheme e1 v1 p) in
  activeThemeName p2 = activeThemeName p
  /\ updateCallbacks p2
     = updateCallbacks p
       ++ [AssignActiveThemeName v1; AssignActiveThemeName v2]
  /\ activeThemeName (runUpdateCallbacks p2) = v2
  /\ updateCallbacks (runUpdateCallbacks p2) = [].
Proof.
  intro p2. subst p2.
  destruct (setTheme_deferred e1 v1 p Hanimated) as [Ha1 Hcb1].
  assert (Hanimated1 : hasStartViewTransition (setTheme e1 v1 p) = true).
  { destruct (setTheme_frame e1 v1 p) as (_ & _ & _ & _ & _ & H).
    now rewrite H. }
  destruct (setTheme_deferred e2 v2 _ Hanimated1) as [Ha2 Hcb2].
  split; [congruence|]. split.
  - rewrite Hcb2, Hcb1, <- app_assoc. reflexivity.
  - split; [|apply runUpdateCallbacks_empties].
    now apply runUpdateCallbacks_last
      with (hs := updateCallbacks (setTheme e1 v1 p)).
Qed.

(** [dark] and then [dark-blue] on the page with view transitions. *)
Lemma last_choice_wins_witness :
  hasStartViewTransition Sample.animatedPage = true
  /\ activeThemeName
       (runUpdateCallbacks
          (setTheme Sample.click "dark-blue"
             (setTheme Sample.click "dark" Sample.animatedPage)))
     = "dark-blue".
Proof.
  split; [reflexivity|].
  exact (proj1 (proj2 (proj2 (last_choice_wins Sample.click Sample.click
                         "dark" "dark-blue" Sample.animatedPage eq_refl)))).
Defined.

(* ================================================================== *)
(** * Properties of the navigation bar *)
(* ================================================================== *)

(** X17. The navigation bar renders either the hamburger together with the
    breadcrumb, or the horizontal sidebar, never both and never neither; on
    a mobile device it is always the hamburger, whatever the layout mode. *)
Theorem navigation_bar_one_menu (isTop isMobile : bool) :
  NavigationBar.rendersSidebar isTop isMobile
  = negb (NavigationBar.rendersHamburger isTop isMobile)
  /\ NavigationBar.rendersBreadcrumb isTop isMobile
     = NavigationBar.rendersHamburger isTop isMobile
  /\ NavigationBar.rendersHamburger isTop true = true
  /\ NavigationBar.rendersSidebar isTop true = false.
Proof.
  destruct isTop, isMobile; repeat split.
Qed.
